(** * decaf/scripts/jeffnet.py: the JeffNet wrapper

    A shallow embedding of the image geometry (oversample, the
    normalisation part of classify), of the model loader and of the
    ranking step (top_k_prediction), with the Python and numpy
    primitives they rest on written out. *)

From Stdlib Require Import String.
From Stdlib Require Import List ZArith QArith Qround Qabs Lia Lqa Bool Arith.
From Stdlib Require Import Permutation Sorted.
From Stdlib Require Import SpecFloat.
Import ListNotations.

Local Open Scope Z_scope.

(** ** Python: exceptions, results, slices *)

Module Py.

(** The exception classes the code can meet. *)
Inductive exn : Type :=
| IOError
| RuntimeError (msg : string)
| ValueError
| IndexError
| KeyError
| ZeroDivisionError
| UnpicklingError
| EOFError.

(** A call either raises or returns. *)
Definition result (A : Type) : Type := (exn + A)%type.

Definition OK {A} (a : A) : result A := inr a.
Definition Raise {A} (e : exn) : result A := inl e.

Definition bind {A B} (r : result A) (k : A -> result B) : result B :=
  match r with
  | inl e => inl e
  | inr a => k a
  end.

Fixpoint mapM {A B} (f : A -> result B) (l : list A) : result (list B) :=
  match l with
  | [] => OK []
  | x :: t =>
      bind (f x) (fun y => bind (mapM f t) (fun ys => OK (y :: ys)))
  end.

(** [try: body except IOError: raise e'] *)
Definition except_IOError {A} (body : result A) (e' : exn) : result A :=
  match body with
  | inl IOError => inl e'
  | r => r
  end.

(** What CPython's PySlice_AdjustIndices does to one bound of a slice
    over a sequence of [len] items. *)
Definition adjust (len : Z) (neg_step : bool) (i : Z) : Z :=
  if i <? 0 then
    if i + len <? 0 then (if neg_step then -1 else 0) else i + len
  else
    if len <=? i then (if neg_step then len - 1 else len) else i.

(** [l[start:stop]]; [None] is an omitted bound. *)
Definition slice {A} (l : list A) (start stop : option Z) : list A :=
  let len := Z.of_nat (length l) in
  let s := match start with None => 0 | Some i => adjust len false i end in
  let e := match stop with None => len | Some i => adjust len false i end in
  firstn (Z.to_nat (e - s)) (skipn (Z.to_nat s) l).

(** [l[start:stop:-1]]: items s, s-1, ..., e+1. *)
Definition slice_rev {A} (l : list A) (start stop : option Z) : list A :=
  let len := Z.of_nat (length l) in
  let s := match start with None => len - 1 | Some i => adjust len true i end in
  let e := match stop with None => -1 | Some i => adjust len true i end in
  rev (firstn (Z.to_nat (s - e)) (skipn (Z.to_nat (e + 1)) l)).

(** [l[i]] for an index that is not negative. *)
Definition getitem {A} (l : list A) (i : nat) : result A :=
  match nth_error l i with
  | Some x => OK x
  | None => Raise IndexError
  end.

End Py.

Import Py.

Notation "x <- e ;; k" := (Py.bind e (fun x => k))
  (at level 61, e at next level, right associativity).

(** ** numpy: arrays as nested lists *)

Module Np.

(** A 3-d array (rows, columns, channels) and a batch of them. *)
Definition arr3 (A : Type) : Type := list (list (list A)).
Definition arr4 (A : Type) : Type := list (arr3 A).

Definition map3 {A B} (f : A -> B) (a : arr3 A) : arr3 B :=
  map (map (map f)) a.

(** The shape of a rectangular array; the lists cannot tell the inner
    extents of an array without rows, which the code never looks at. *)
Definition shape3 {A} (a : arr3 A) : nat * nat * nat :=
  (length a, length (hd [] a), length (hd [] (hd [] a))).

(** [a] is rectangular of shape (h, w, c). *)
Definition has_shape {A} (h w c : nat) (a : arr3 A) : bool :=
  (length a =? h)%nat &&
  forallb (fun row =>
             (length row =? w)%nat &&
             forallb (fun px => (length px =? c)%nat) row) a.

(** Broadcasting one axis to extent [n]: equal extents pass, an extent
    of 1 is repeated, anything else is refused. *)
Definition bcast {X} (n : nat) (l : list X) : result (list X) :=
  if (length l =? n)%nat then OK l
  else match l with
       | [x] => OK (repeat x n)
       | _ => Raise ValueError
       end.

(** Broadcasting a 3-d array to shape (h, w, c). *)
Definition broadcast_to {X} (h w c : nat) (a : arr3 X) : result (arr3 X) :=
  rows <- mapM (fun row =>
                  pxs <- mapM (bcast c) row ;;
                  bcast w pxs) a ;;
  bcast h rows.

(** [a[i] = v] on a list of slots. *)
Fixpoint setitem {X} (a : list X) (i : nat) (v : X) : list X :=
  match a, i with
  | [], _ => []
  | _ :: t, O => v :: t
  | x :: t, S j => x :: setitem t j v
  end.

(** [a[i0:i1, j0:j1]] *)
Definition slice2 {X} (a : arr3 X) (i0 i1 j0 j1 : option Z) : arr3 X :=
  map (fun row => slice row j0 j1) (slice a i0 i1).

(** Elementwise [f] on two arrays of one shape. *)
Definition zip3 {X} (f : X -> X -> X) (a b : arr3 X) : arr3 X :=
  map (fun rr =>
         map (fun pp =>
                map (fun vv => f (fst vv) (snd vv))
                    (combine (fst pp) (snd pp)))
             (combine (fst rr) (snd rr)))
      (combine a b).

End Np.

Import Np.

(** ** JeffNet.oversample *)

Definition INPUT_DIM : Z := 227.

Section Oversample.

(** The element type of the image, that of the float32 batch, the
    conversion between them, and what [np.empty] leaves in a slot. *)
Context {A B : Type}.
Variable astype_float32 : A -> B.
Variable np_empty : arr3 B.

(** [image[i:i + INPUT_DIM, j:j + INPUT_DIM]] *)
Definition crop (image : arr3 A) (i j : Z) : arr3 A :=
  slice2 image (Some i) (Some (i + INPUT_DIM)) (Some j) (Some (j + INPUT_DIM)).

(** [images[curr] = v] where [images] is (10, 227, 227, 3) float32:
    the slot must exist, and [v] is broadcast to it and converted. *)
Definition assign (images : arr4 B) (curr : nat) (v : arr3 A)
  : result (arr4 B) :=
  if (curr <? length images)%nat then
    v' <- broadcast_to (Z.to_nat INPUT_DIM) (Z.to_nat INPUT_DIM) 3 v ;;
    OK (setitem images curr (map3 astype_float32 v'))
  else Raise IndexError.

(** The two nested [for] loops over [indices], threading [images] and
    [curr]. *)
Definition corners (image : arr3 A) (indices : list Z)
           (st : arr4 B * nat) : result (arr4 B * nat) :=
  fold_left
    (fun acc i =>
       fold_left
         (fun acc' j =>
            s <- acc' ;;
            images <- assign (fst s) (snd s) (crop image i j) ;;
            OK (images, S (snd s)))
         indices acc)
    indices (OK st).

(** [images[:5, ::-1]]: the first five items, each with its first axis
    reversed. *)
Definition flipped (images : arr4 B) : arr4 B :=
  map (fun im => slice_rev im None None) (slice images None (Some 5)).

(** [images[5:] = v] *)
Definition assign_tail (images : arr4 B) (v : arr4 B) : result (arr4 B) :=
  if Nat.eqb (length v) (length (slice images (Some 5) None))
  then OK (slice images None (Some 5) ++ v)
  else Raise ValueError.

Definition oversample (image : arr3 A) (center_only : bool)
  : result (arr4 B) :=
  let indices := [0; 256 - INPUT_DIM] in
  let center := nth 1 indices 0 / 2 in
  if center_only then
    OK [map3 astype_float32 (crop image center center)]
  else
    let images := repeat np_empty 10 in
    st <- corners image indices (images, O) ;;
    images <- assign (fst st) 4 (crop image center center) ;;
    assign_tail images (flipped images).

End Oversample.

(** ** JeffNet.top_k_prediction *)

(** [scores[i] <= scores[j]], for indices of the vector. *)
Definition le_at {S} (leb : S -> S -> bool) (scores : list S) (i j : nat)
  : bool :=
  match nth_error scores i, nth_error scores j with
  | Some a, Some b => leb a b
  | _, _ => false
  end.

(** numpy's [argsort] on a vector of numbers: the indices of the vector,
    each once, in an order that makes the scores ascend. The order of the
    indices of equal scores is the sorting routine's choice. *)
Class Argsort {S : Type} (leb : S -> S -> bool) : Type := {
  argsort : list S -> list nat;
  argsort_perm : forall scores,
    Permutation (argsort scores) (seq 0 (length scores));
  argsort_sorted : forall scores,
    StronglySorted (fun i j => le_at leb scores i j = true) (argsort scores)
}.

Section TopK.

Context {S : Type} {leb : S -> S -> bool} {numpy : Argsort leb}.

Definition top_k_prediction (label_names : list string) (scores : list S)
           (k : Z) : result (list nat * list string) :=
  let indices := argsort scores in
  names <- mapM (fun i => getitem label_names i)
                (slice_rev indices None (Some (- (k + 1)))) ;;
  OK (slice_rev indices None (Some (- (k + 1))), names).

End TopK.

(** ** JeffNet.__init__ *)

(** The attributes of a JeffNet object; [None] is an attribute that has
    not been set. *)
Record JeffNet (Net Obj Mean : Type) : Type := {
  _net : option Net;
  label_names : option Obj;
  _data_mean : option Mean
}.

Arguments _net {Net Obj Mean}.
Arguments label_names {Net Obj Mean}.
Arguments _data_mean {Net Obj Mean}.

Section Loader.

(** Unpickled Python objects, translated networks and mean images, and
    the collaborators that produce them: [pickle.load], subscription
    [obj[key]], and the two functions of [decaf.util.translator]. *)
Context {Obj Net Mean : Type}.
Variable pickle_load : list Byte.byte -> result Obj.
Variable subscript : Obj -> string -> result Obj.
Variable translate_cuda_network : Obj -> Z * Z * Z -> result Net.
Variable img_cudaconv_to_decaf : Obj -> Z -> Z -> result Mean.

(** The files that can be opened, by path. *)
Variable fs : string -> option (list Byte.byte).

(** The two paths next to the script. *)
Variable _JEFFNET_FILE : string.
Variable _META_FILE : string.

(** [open(path)] *)
Definition open (path : string) : result (list Byte.byte) :=
  match fs path with
  | Some bytes => OK bytes
  | None => Raise IOError
  end.

(** [not path] for an optional string argument. *)
Definition falsy (path : option string) : bool :=
  match path with
  | None => true
  | Some EmptyString => true
  | Some _ => false
  end.

Definition or_default (path : option string) (default : string) : string :=
  match path with
  | Some p => if falsy path then default else p
  | None => default
  end.

(** The [try] block: both files opened and unpickled, an IOError of the
    body answered by the RuntimeError. *)
Definition load_files (net_file meta_file : option string)
  : result (Obj * Obj) :=
  except_IOError
    (let net_file := or_default net_file _JEFFNET_FILE in
     let meta_file := or_default meta_file _META_FILE in
     f <- open net_file ;;
     cuda_jeffnet <- pickle_load f ;;
     g <- open meta_file ;;
     meta <- pickle_load g ;;
     OK (cuda_jeffnet, meta))
    (RuntimeError "Cannot find JeffNet files.").

(** [__init__] on the object [self]: the object as the call leaves it,
    and whether the call returned or raised. *)
Definition __init__ (self : JeffNet Net Obj Mean)
           (net_file meta_file : option string)
  : JeffNet Net Obj Mean * result unit :=
  match load_files net_file meta_file with
  | inl e => (self, Raise e)
  | inr (cuda_jeffnet, meta) =>
      match translate_cuda_network cuda_jeffnet (INPUT_DIM, INPUT_DIM, 3) with
      | inl e => (self, Raise e)
      | inr net =>
          let self := {| _net := Some net;
                         label_names := label_names self;
                         _data_mean := _data_mean self |} in
          match subscript meta "label_names" with
          | inl e => (self, Raise e)
          | inr names =>
              let self := {| _net := _net self;
                             label_names := Some names;
                             _data_mean := _data_mean self |} in
              match subscript meta "data_mean" with
              | inl e => (self, Raise e)
              | inr data_mean =>
                  match img_cudaconv_to_decaf data_mean 256 3 with
                  | inl e => (self, Raise e)
                  | inr mean =>
                      ({| _net := _net self;
                          label_names := label_names self;
                          _data_mean := Some mean |}, OK tt)
                  end
              end
          end
      end
  end.

(** A new object, before [__init__] runs. *)
Definition blank : JeffNet Net Obj Mean :=
  {| _net := None; label_names := None; _data_mean := None |}.

(** [JeffNet(net_file, meta_file)]: the caller gets the object only when
    [__init__] returns. *)
Definition new (net_file meta_file : option string)
  : result (JeffNet Net Obj Mean) :=
  match __init__ blank net_file meta_file with
  | (self, inr _) => OK self
  | (_, inl e) => Raise e
  end.

End Loader.

(** ** JeffNet.classify: from the input image to the canonical image *)

Local Open Scope Q_scope.

(** The element types the code meets. *)
Inductive np_dtype : Type := uint8 | float32 | float64.


(** A 3-d array with its element type. The numbers are rationals: the
    geometry does not depend on how a float rounds. *)
Record ndarray : Type := {
  dtype : np_dtype;
  data : arr3 Q
}.

(** What classify is given: an array of two or of three axes. *)
Inductive image : Type :=
| Im2 (d : np_dtype) (px : list (list Q))
| Im3 (a : ndarray).

(** Every number of the array lies in [lo, hi]. *)
Definition within (lo hi : Q) (a : arr3 Q) : bool :=
  forallb (forallb (forallb (fun v => Qle_bool lo v && Qle_bool v hi))) a.

(** [a -= b]: [b] is broadcast to the shape of [a], which keeps its
    element type. *)
Definition isub (a b : ndarray) : result ndarray :=
  let '(h, w, c) := shape3 (data a) in
  b' <- broadcast_to h w c (data b) ;;
  OK {| dtype := dtype a; data := zip3 Qminus (data a) b' |}.

(** [a *= x] *)
Definition imul (a : ndarray) (x : Q) : ndarray :=
  {| dtype := dtype a; data := map3 (fun v => v * x) (data a) |}.

(** Python's [int] of a float: the fraction is cut off. *)
Definition py_int (q : Q) : Z :=
  if Qle_bool 0 q then Qfloor q else Qceiling q.

(** [a / b] on floats *)
Definition true_div (a b : Q) : result Q :=
  if Qeq_bool b 0 then Raise ZeroDivisionError else OK (a / b).

(** skimage's [transform.resize] on an image of three axes and a target
    of rows and columns: a float64 array of that many rows and columns and
    as many channels as the image; a uint8 image is read as fractions of
    255, and interpolation stays between the values it reads. *)
Class Skimage : Type := {
  resize : ndarray -> Z * Z -> result ndarray;
  resize_spec : forall (d : np_dtype) (a : arr3 Q) (h w c : nat)
                       (rows cols : Z),
    has_shape h w c a = true ->
    (1 <= h)%nat -> (1 <= w)%nat ->
    (1 <= rows)%Z -> (1 <= cols)%Z ->
    exists out,
      resize {| dtype := d; data := a |} (rows, cols)
        = OK {| dtype := float64; data := out |} /\
      has_shape (Z.to_nat rows) (Z.to_nat cols) c out = true /\
      (d = uint8 -> within 0 255 a = true -> within 0 1 out = true)
}.

Definition _JEFFNET_FLIP : bool := true.

Section Normalize.

Context {skimage : Skimage}.

(** [self._data_mean] *)
Variable data_mean : ndarray.

(** Lines 116 to 120: two axes are tiled to three channels, a fourth
    channel is cut off. *)
Definition three_channels (im : image) : ndarray :=
  match im with
  | Im2 d px =>
      {| dtype := d;
         data := map (map (fun p => p ++ p ++ p))
                     (map (map (fun v => [v])) px) |}
  | Im3 a =>
      if Nat.eqb (snd (shape3 (data a))) 4 then
        {| dtype := dtype a;
           data := map (map (fun p => slice p None (Some 3%Z))) (data a) |}
      else a
  end.

(** Lines 122 to 126 *)
Definition newshape (height width : Z) : result (Z * Z) :=
  if (height <? width)%Z then
    q <- true_div (inject_Z width * 256) (inject_Z height) ;;
    OK (256%Z, py_int (q + (1 # 2)))
  else
    q <- true_div (inject_Z height * 256) (inject_Z width) ;;
    OK (py_int (q + (1 # 2)), 256%Z).

(** Lines 122 to 130: the resize and the return to the scale of 255. *)
Definition resized (im : ndarray) : result ndarray :=
  let height := Z.of_nat (fst (fst (shape3 (data im)))) in
  let width := Z.of_nat (snd (fst (shape3 (data im)))) in
  shape <- newshape height width ;;
  im' <- resize im shape ;;
  OK (imul im' 255).

(** Lines 131 to 136: the flip of the rows and the 256 x 256 center. *)
Definition flip_and_center (im : ndarray) : ndarray :=
  let flipped :=
    if _JEFFNET_FLIP then
      map (fun row => slice row None None) (slice_rev (data im) None None)
    else data im in
  let h_offset := ((Z.of_nat (fst (fst (shape3 flipped))) - 256) / 2)%Z in
  let w_offset := ((Z.of_nat (snd (fst (shape3 flipped))) - 256) / 2)%Z in
  {| dtype := dtype im;
     data := slice2 flipped (Some h_offset) (Some (h_offset + 256)%Z)
                            (Some w_offset) (Some (w_offset + 256)%Z) |}.

(** Lines 116 to 138: everything before the oversampling. *)
Definition normalize (im : image) : result ndarray :=
  im' <- resized (three_channels im) ;;
  isub (flip_and_center im') data_mean.

End Normalize.

(** ** JeffNet.classify: the prediction and its mean *)

(** The arithmetic of a score type: addition, and division of a sum by
    the number of its terms. *)
Class Arith (F : Type) : Type := {
  add : F -> F -> F;
  div_count : F -> nat -> F
}.

Section Mean.

Context {F : Type} {arith : Arith F}.

(** One step of [add.reduce] down axis 0: a row added to the sums. *)
Definition add_rows (acc row : list F) : list F :=
  map (fun p => add (fst p) (snd p)) (combine acc row).

(** [batch.sum(0)]: the rows added in their order, from the first. *)
Definition sum0 (batch : list (list F)) : list F :=
  match batch with
  | [] => []
  | first :: rest => fold_left add_rows rest first
  end.

(** [batch.mean(0)] *)
Definition mean0 (batch : list (list F)) : list F :=
  map (fun s => div_count s (length batch)) (sum0 batch).

End Mean.

Section Classify.

Context {skimage : Skimage} {F B : Type} {arith : Arith F}.

(** [self._data_mean], the conversion to float32, what [np.empty] leaves
    in a slot, and [self._net.predict(data=images)['probs_cudanet_out']]. *)
Variable data_mean : ndarray.
Variable astype_float32 : Q -> B.
Variable np_empty : arr3 B.
Variable predict : arr4 B -> result (list (list F)).

Definition classify_direct (images : arr4 B) : result (list (list F)) :=
  predict images.

Definition classify (im : image) (center_only : bool) : result (list F) :=
  im' <- normalize data_mean im ;;
  images <- oversample astype_float32 np_empty (data im') center_only ;;
  predictions <- classify_direct images ;;
  OK (mean0 predictions).

End Classify.

(** Exact arithmetic. *)
#[export] Instance rational : Arith Q := {
  add := Qplus;
  div_count := fun s n => s / inject_Z (Z.of_nat n)
}.

(** IEEE 754 binary arithmetic of precision [prec] and exponent bound
    [emax], every operation rounded to nearest, ties to even. *)
Definition ieee (prec emax : Z) : Arith spec_float := {|
  add := SFadd prec emax;
  div_count := fun s n =>
    SFdiv prec emax s (binary_normalize prec emax (Z.of_nat n) 0 false)
|}.

Definition binary32 : Arith spec_float := ieee 24 128.
Definition binary64 : Arith spec_float := ieee 53 1024.

(** 0.1 as a float32 and as a float64, and a score vector that gives ten
    classes 0.1 each. *)
Definition tenth32 : spec_float := S754_finite false 13421773 (-27).
Definition tenth64 : spec_float := S754_finite false 7205759403792794 (-56).

Definition probs32 : list spec_float :=
  repeat tenth32 10 ++ repeat (S754_zero false) 990.

Definition probs64 : list spec_float :=
  repeat tenth64 10 ++ repeat (S754_zero false) 990.

Local Open Scope Z_scope.

(** ** Facts about slices and shapes *)

Section SliceFacts.

Context {X : Type}.

Lemma adjust_fwd_upto (len i : Z) :
  0 <= i <= len -> adjust len false i = i.
Proof.
  intros H. unfold adjust.
  destruct (Z.ltb_spec i 0); [lia|].
  destruct (Z.leb_spec len i); lia.
Qed.

Lemma slice_within (l : list X) (i d : Z) :
  0 <= i -> 0 <= d -> i + d <= Z.of_nat (length l) ->
  slice l (Some i) (Some (i + d)) =
  firstn (Z.to_nat d) (skipn (Z.to_nat i) l).
Proof.
  intros Hi Hd Hlen. unfold slice.
  rewrite !adjust_fwd_upto by lia.
  f_equal. f_equal. lia.
Qed.

Lemma slice_within_length (l : list X) (i d : Z) :
  0 <= i -> 0 <= d -> i + d <= Z.of_nat (length l) ->
  length (slice l (Some i) (Some (i + d))) = Z.to_nat d.
Proof.
  intros Hi Hd Hlen. rewrite slice_within by assumption.
  rewrite length_firstn, length_skipn. lia.
Qed.

Lemma slice_within_nth (l : list X) (i d : Z) (n : nat) (x : X) :
  0 <= i -> 0 <= d -> i + d <= Z.of_nat (length l) ->
  (n < Z.to_nat d)%nat ->
  nth n (slice l (Some i) (Some (i + d))) x = nth (Z.to_nat i + n) l x.
Proof.
  intros Hi Hd Hlen Hn. rewrite slice_within by assumption.
  rewrite nth_firstn.
  destruct (Nat.ltb_spec n (Z.to_nat d)); [|lia].
  apply nth_skipn.
Qed.

Lemma slice_head (l : list X) (n : Z) :
  0 <= n <= Z.of_nat (length l) ->
  slice l None (Some n) = firstn (Z.to_nat n) l.
Proof.
  intros H. unfold slice. rewrite adjust_fwd_upto by lia.
  rewrite Z.sub_0_r. reflexivity.
Qed.

Lemma slice_tail (l : list X) (n : Z) :
  0 <= n <= Z.of_nat (length l) ->
  slice l (Some n) None = skipn (Z.to_nat n) l.
Proof.
  intros H. unfold slice. rewrite adjust_fwd_upto by lia.
  apply firstn_all2. rewrite length_skipn. lia.
Qed.

(** [l[::-1]] is the list reversed. *)
Lemma slice_rev_all (l : list X) : slice_rev l None None = rev l.
Proof.
  unfold slice_rev. f_equal. simpl skipn.
  apply firstn_all2. lia.
Qed.

End SliceFacts.

Section ShapeFacts.

Context {X : Type}.

Lemma has_shape_spec (h w c : nat) (a : arr3 X) :
  has_shape h w c a = true <->
  length a = h /\
  Forall (fun row => length row = w /\
                     Forall (fun px => length px = c) row) a.
Proof.
  unfold has_shape. rewrite andb_true_iff, Nat.eqb_eq, forallb_forall.
  rewrite Forall_forall. split; intros [Hl Hr]; split; trivial; intros row Hin.
  - specialize (Hr row Hin).
    rewrite andb_true_iff, Nat.eqb_eq, forallb_forall in Hr.
    destruct Hr as [Hw Hp]. split; [assumption|].
    rewrite Forall_forall. intros px Hpx. apply Nat.eqb_eq. auto.
  - destruct (Hr row Hin) as [Hw Hp].
    rewrite andb_true_iff, Nat.eqb_eq, forallb_forall. split; [assumption|].
    intros px Hpx. apply Nat.eqb_eq.
    rewrite Forall_forall in Hp. auto.
Qed.

Lemma bcast_same {Y : Type} (n : nat) (l : list Y) :
  length l = n -> bcast n l = OK l.
Proof.
  intros H. unfold bcast. rewrite (proj2 (Nat.eqb_eq _ _) H). reflexivity.
Qed.

Lemma mapM_same {Y : Type} (f : Y -> result Y) (l : list Y) :
  Forall (fun y => f y = OK y) l -> mapM f l = OK l.
Proof.
  induction 1 as [|y l Hy _ IH]; simpl; [reflexivity|].
  rewrite Hy. simpl. rewrite IH. reflexivity.
Qed.

(** An array that already has the shape is broadcast to itself. *)
Lemma broadcast_to_same (h w c : nat) (a : arr3 X) :
  has_shape h w c a = true -> broadcast_to h w c a = OK a.
Proof.
  rewrite has_shape_spec. intros [Hh Hrows]. unfold broadcast_to.
  rewrite mapM_same.
  - simpl. apply bcast_same, Hh.
  - eapply Forall_impl; [|exact Hrows].
    intros row [Hw Hpx]. rewrite mapM_same.
    + simpl. apply bcast_same, Hw.
    + eapply Forall_impl; [|exact Hpx].
      intros px Hc. apply bcast_same, Hc.
Qed.

End ShapeFacts.

Section SublistFacts.

Context {X : Type} (P : X -> Prop).

Lemma Forall_firstn_keeps (n : nat) (l : list X) :
  Forall P l -> Forall P (firstn n l).
Proof.
  intros H. revert n. induction H as [|x l Hx _ IH]; intros [|n]; simpl;
    constructor; auto.
Qed.

Lemma Forall_skipn_keeps (n : nat) (l : list X) :
  Forall P l -> Forall P (skipn n l).
Proof.
  intros H. revert n. induction H as [|x l Hx Hl IH]; intros [|n]; simpl;
    auto.
Qed.

End SublistFacts.

Lemma slice_all {X} (l : list X) : slice l None None = l.
Proof.
  unfold slice. rewrite Z.sub_0_r, Nat2Z.id. simpl skipn. apply firstn_all.
Qed.

Lemma nth_map_in {X Y} (f : X -> Y) (l : list X) (n : nat) (d : X) (d' : Y) :
  (n < length l)%nat -> nth n (map f l) d' = f (nth n l d).
Proof.
  intros H. rewrite (nth_indep _ d' (f d)) by (rewrite length_map; exact H).
  apply map_nth.
Qed.

Lemma slice2_shape {X} (h w c : nat) (a : arr3 X) (i j d e : Z) :
  has_shape h w c a = true ->
  (0 <= i)%Z -> (0 <= d)%Z -> (i + d <= Z.of_nat h)%Z ->
  (0 <= j)%Z -> (0 <= e)%Z -> (j + e <= Z.of_nat w)%Z ->
  has_shape (Z.to_nat d) (Z.to_nat e) c
            (slice2 a (Some i) (Some (i + d)%Z) (Some j) (Some (j + e)%Z))
  = true.
Proof.
  rewrite !has_shape_spec. intros [Hh Hrows] Hi Hd Hih Hj He Hjw.
  unfold slice2. split.
  - rewrite length_map, slice_within_length; lia.
  - rewrite Forall_map, slice_within by lia.
    apply Forall_firstn_keeps, Forall_skipn_keeps.
    eapply Forall_impl; [|exact Hrows].
    intros row [Hw Hpx]. split.
    + rewrite slice_within_length; lia.
    + rewrite slice_within by lia.
      apply Forall_firstn_keeps, Forall_skipn_keeps, Hpx.
Qed.

Lemma shape3_of_has_shape {X} (h w c : nat) (a : arr3 X) :
  has_shape h w c a = true -> (1 <= h)%nat -> (1 <= w)%nat ->
  shape3 a = (h, w, c).
Proof.
  rewrite has_shape_spec. intros [Hh Hrows] H1 H2. unfold shape3.
  destruct a as [|row t]; [simpl in Hh; lia|].
  inversion Hrows as [|? ? [Hw Hpx] _]; subst. simpl.
  destruct row as [|px r]; [simpl in H2; lia|].
  inversion Hpx; subst. reflexivity.
Qed.

Lemma zip3_shape {X} (f : X -> X -> X) (h w c : nat) (a b : arr3 X) :
  has_shape h w c a = true -> has_shape h w c b = true ->
  has_shape h w c (zip3 f a b) = true.
Proof.
  rewrite !has_shape_spec. intros [Ha Hra] [Hb Hrb]. unfold zip3. split.
  - rewrite length_map, length_combine. lia.
  - rewrite Forall_map. apply Forall_forall. intros [ra rb] Hin.
    assert (Hina := in_combine_l _ _ _ _ Hin).
    assert (Hinb := in_combine_r _ _ _ _ Hin).
    rewrite Forall_forall in Hra, Hrb.
    destruct (Hra _ Hina) as [Hwa Hpa]. destruct (Hrb _ Hinb) as [Hwb Hpb].
    simpl. split.
    + rewrite length_map, length_combine. lia.
    + rewrite Forall_map. apply Forall_forall. intros [pa pb] Hp.
      assert (Hipa := in_combine_l _ _ _ _ Hp).
      assert (Hipb := in_combine_r _ _ _ _ Hp).
      rewrite Forall_forall in Hpa, Hpb.
      simpl. rewrite length_map, length_combine.
      rewrite (Hpa _ Hipa), (Hpb _ Hipb). lia.
Qed.

(** ** Facts about oversample *)

(** The pixel of row [r] and column [c]. *)
Definition pixel {X} (a : arr3 X) (r c : nat) : list X :=
  nth c (nth r a []) [].

(** The offsets of the five crops, in the order the code fills them. *)
Definition offsets : list (Z * Z) :=
  [(0, 0); (0, 29); (29, 0); (29, 29); (14, 14)].

Section OversampleFacts.

Context {A B : Type}.
Variable astype_float32 : A -> B.
Variable np_empty : arr3 B.

Lemma crop_shape (h w c : nat) (image : arr3 A) (i j : Z) :
  has_shape h w c image = true ->
  0 <= i -> i + INPUT_DIM <= Z.of_nat h ->
  0 <= j -> j + INPUT_DIM <= Z.of_nat w ->
  has_shape 227 227 c (crop image i j) = true.
Proof.
  intros Hs Hi Hih Hj Hjw. unfold INPUT_DIM in *.
  apply (slice2_shape h w c image i j 227 227 Hs); lia.
Qed.

(** The crop at offset (i, j) holds the pixels (i + r, j + c). *)
Lemma crop_pixel (h w ch : nat) (image : arr3 A) (i j : Z) (r c : nat) :
  has_shape h w ch image = true ->
  0 <= i -> i + INPUT_DIM <= Z.of_nat h ->
  0 <= j -> j + INPUT_DIM <= Z.of_nat w ->
  (r < 227)%nat -> (c < 227)%nat ->
  pixel (crop image i j) r c =
  pixel image (Z.to_nat i + r) (Z.to_nat j + c).
Proof.
  rewrite has_shape_spec. intros [Hh Hrows] Hi Hih Hj Hjw Hr Hc.
  unfold pixel, crop, slice2, INPUT_DIM in *.
  rewrite (nth_indep _ [] (slice (@nil (list A)) (Some j) (Some (j + 227))))
    by (rewrite length_map, slice_within_length; lia).
  rewrite (map_nth (fun row => slice row (Some j) (Some (j + 227)))).
  rewrite (slice_within_nth image) by lia.
  apply slice_within_nth; try lia.
  assert (Hin : In (nth (Z.to_nat i + r) image []) image)
    by (apply nth_In; lia).
  rewrite Forall_forall in Hrows. destruct (Hrows _ Hin) as [Hw _]. lia.
Qed.

Lemma assign_ok (images : arr4 B) (curr : nat) (v : arr3 A) :
  (curr < length images)%nat ->
  has_shape 227 227 3 v = true ->
  assign astype_float32 images curr v =
  OK (setitem images curr (map3 astype_float32 v)).
Proof.
  intros Hcurr H. unfold assign.
  rewrite (proj2 (Nat.ltb_lt _ _) Hcurr).
  change (Z.to_nat INPUT_DIM) with 227%nat.
  rewrite (broadcast_to_same _ _ _ _ H). reflexivity.
Qed.

(** The batch the ten-crop branch returns, written out. *)
Definition ten_crops (image : arr3 A) : arr4 B :=
  let five := map (fun o => map3 astype_float32 (crop image (fst o) (snd o)))
                  offsets in
  five ++ map (@rev (list (list B))) five.

Lemma oversample_ten (image : arr3 A) :
  has_shape 256 256 3 image = true ->
  oversample astype_float32 np_empty image false = OK (ten_crops image).
Proof.
  intros H.
  assert (Hc : forall i j, 0 <= i <= 29 -> 0 <= j <= 29 ->
               has_shape 227 227 3 (crop image i j) = true).
  { intros i j Hi Hj.
    apply (crop_shape 256 256 3); unfold INPUT_DIM; try lia; exact H. }
  unfold oversample, corners.
  change (256 - INPUT_DIM) with 29.
  change (nth 1 [0; 29] 0 / 2) with 14.
  cbn [fold_left bind OK repeat fst snd].
  repeat (rewrite assign_ok by (first [apply Hc; lia | simpl; lia]);
          cbn [bind OK fst snd setitem]).
  unfold assign_tail, flipped.
  rewrite !slice_head, !slice_tail by (simpl; lia).
  change (Z.to_nat 5) with 5%nat.
  cbn [firstn skipn map app length Nat.eqb].
  rewrite !slice_rev_all. reflexivity.
Qed.

Lemma oversample_center (image : arr3 A) :
  oversample astype_float32 np_empty image true =
  OK [map3 astype_float32 (crop image 14 14)].
Proof. reflexivity. Qed.

End OversampleFacts.

Section BatchFacts.

Context {A B : Type}.
Variable astype_float32 : A -> B.

Lemma has_shape_map3 (h w c : nat) (a : arr3 A) :
  has_shape h w c a = true -> has_shape h w c (map3 astype_float32 a) = true.
Proof.
  rewrite !has_shape_spec. intros [Hh Hrows]. unfold map3. split.
  - rewrite length_map. exact Hh.
  - rewrite Forall_map. eapply Forall_impl; [|exact Hrows].
    intros row [Hw Hpx]. split.
    + rewrite length_map. exact Hw.
    + rewrite Forall_map. eapply Forall_impl; [|exact Hpx].
      intros px Hc. rewrite length_map. exact Hc.
Qed.

Lemma has_shape_rev (h w c : nat) (a : arr3 B) :
  has_shape h w c a = true -> has_shape h w c (rev a) = true.
Proof.
  rewrite !has_shape_spec. intros [Hh Hrows]. split.
  - rewrite length_rev. exact Hh.
  - apply Forall_rev, Hrows.
Qed.

Lemma pixel_map3 (a : arr3 A) (r c : nat) :
  pixel (map3 astype_float32 a) r c = map astype_float32 (pixel a r c).
Proof.
  unfold pixel, map3.
  change (@nil (list B)) with (map (map astype_float32) []) at 1.
  rewrite map_nth.
  change (@nil B) with (map astype_float32 []) at 1.
  rewrite map_nth. reflexivity.
Qed.

(** Reversing the first axis sends row [r] to row [h - 1 - r]. *)
Lemma pixel_rev (a : arr3 B) (r c : nat) :
  (r < length a)%nat ->
  pixel (rev a) r c = pixel a (length a - S r) c.
Proof.
  intros Hr. unfold pixel. rewrite rev_nth by assumption. reflexivity.
Qed.

Lemma ten_crops_nth (image : arr3 A) (n : nat) :
  (n < 5)%nat ->
  nth n (ten_crops astype_float32 image) [] =
    map3 astype_float32 (crop image (fst (nth n offsets (0, 0)))
                             (snd (nth n offsets (0, 0)))) /\
  nth (n + 5) (ten_crops astype_float32 image) [] =
    rev (nth n (ten_crops astype_float32 image) []).
Proof.
  intros Hn.
  do 5 (destruct n as [|n]; [split; reflexivity|]). lia.
Qed.

Lemma offsets_range (n : nat) :
  0 <= fst (nth n offsets (0, 0)) <= 29 /\
  0 <= snd (nth n offsets (0, 0)) <= 29.
Proof.
  do 5 (destruct n as [|n]; [simpl; lia|]). destruct n; simpl; lia.
Qed.

Lemma ten_crops_shape (image : arr3 A) :
  has_shape 256 256 3 image = true ->
  Forall (fun cr => has_shape 227 227 3 cr = true)
         (ten_crops astype_float32 image).
Proof.
  intros H. unfold ten_crops.
  assert (Hfive : Forall (fun cr => has_shape 227 227 3 cr = true)
            (map (fun o => map3 astype_float32 (crop image (fst o) (snd o)))
                 offsets)).
  { rewrite Forall_map. rewrite Forall_forall. intros [i j] Hin.
    apply has_shape_map3. apply (crop_shape 256 256 3); trivial;
      unfold INPUT_DIM; simpl in Hin |- *;
      repeat (destruct Hin as [Hin|Hin]; [inversion Hin; lia|]);
      contradiction. }
  apply Forall_app. split; [exact Hfive|].
  rewrite Forall_map. eapply Forall_impl; [|exact Hfive].
  intros cr Hcr. apply has_shape_rev, Hcr.
Qed.

End BatchFacts.

(** A 256 x 256 x 3 image whose pixel (r, c) is [r; c; 0]; every value is
    a whole number below 256, which float32 holds exactly. *)
Definition ramp : arr3 Z :=
  map (fun r => map (fun c => [Z.of_nat r; Z.of_nat c; 0]) (seq 0 256))
      (seq 0 256).

Lemma ramp_shape : has_shape 256 256 3 ramp = true.
Proof. vm_compute. reflexivity. Qed.

(** ** The claims about oversample *)

(** Reversing the width axis: every row read right to left. *)
Definition width_mirror {X} (a : arr3 X) : arr3 X := map (@rev (list X)) a.

(** Reversing the height axis: the rows taken bottom up. *)
Definition height_mirror {X} (a : arr3 X) : arr3 X := rev a.

(** C2, as the code has it: for every 256 x 256 x 3 image the ten-crop
    branch returns 10 crops; crops 0..4 are the crops at the offsets
    (0,0), (0,29), (29,0), (29,29), (14,14), that is top-left, top-right,
    bottom-left, bottom-right and center (pixel (r, c) of crop n is pixel
    (row offset + r, column offset + c) of the image, converted); and crop
    n + 5 is crop n with its height axis (its rows) reversed: pixel (r, c)
    of crop n + 5 is pixel (226 - r, c) of crop n. *)
Theorem oversample_order_and_flip
  {A B : Type} (astype_float32 : A -> B) (np_empty : arr3 B) (image : arr3 A) :
  has_shape 256 256 3 image = true ->
  exists crops,
    oversample astype_float32 np_empty image false = OK crops /\
    length crops = 10%nat /\
    forall n, (n < 5)%nat ->
      let o := nth n offsets (0, 0) in
      nth n crops [] = map3 astype_float32 (crop image (fst o) (snd o)) /\
      nth (n + 5) crops [] = height_mirror (nth n crops []) /\
      forall r c, (r < 227)%nat -> (c < 227)%nat ->
        pixel (nth n crops []) r c =
          map astype_float32 (pixel image (Z.to_nat (fst o) + r)
                                   (Z.to_nat (snd o) + c)) /\
        pixel (nth (n + 5) crops []) r c =
          pixel (nth n crops []) (226 - r) c.
Proof.
  intros H. exists (ten_crops astype_float32 image).
  split; [apply oversample_ten, H|]. split; [reflexivity|].
  intros n Hn o.
  destruct (ten_crops_nth astype_float32 image n Hn) as [Hcrop Hflip].
  destruct (offsets_range n) as [Hi Hj]. fold o in Hcrop, Hi, Hj.
  assert (Hs : has_shape 227 227 3 (crop image (fst o) (snd o)) = true)
    by (apply (crop_shape 256 256 3); unfold INPUT_DIM; trivial; lia).
  split; [exact Hcrop|]. split; [exact Hflip|].
  intros r c Hr Hc. split.
  - rewrite Hcrop, pixel_map3. f_equal.
    apply (crop_pixel 256 256 3); unfold INPUT_DIM; trivial; lia.
  - assert (Hlen : length (nth n (ten_crops astype_float32 image) [])
                   = 227%nat).
    { rewrite Hcrop. unfold map3. rewrite length_map.
      apply has_shape_spec in Hs. destruct Hs as [Hlen _]. exact Hlen. }
    rewrite Hflip. unfold height_mirror.
    rewrite pixel_rev by (rewrite Hlen; exact Hr).
    rewrite Hlen. reflexivity.
Qed.

Lemma oversample_order_and_flip_witness :
  has_shape 256 256 3 ramp = true /\
  exists crops,
    oversample (fun x : Z => x) [] ramp false = OK crops /\
    length crops = 10%nat /\
    forall n, (n < 5)%nat ->
      let o := nth n offsets (0, 0) in
      nth n crops [] = map3 (fun x : Z => x) (crop ramp (fst o) (snd o)) /\
      nth (n + 5) crops [] = height_mirror (nth n crops []) /\
      forall r c, (r < 227)%nat -> (c < 227)%nat ->
        pixel (nth n crops []) r c =
          map (fun x : Z => x) (pixel ramp (Z.to_nat (fst o) + r)
                                           (Z.to_nat (snd o) + c)) /\
        pixel (nth (n + 5) crops []) r c =
          pixel (nth n crops []) (226 - r) c.
Proof.
  split; [exact ramp_shape|].
  apply (oversample_order_and_flip (fun x : Z => x) [] ramp ramp_shape).
Defined.

(** C2 as the spec words it fails: on the ramp image crop 5 is not crop 0
    with its width axis reversed. Pixel (0, 0) of crop 5 is pixel (226, 0)
    of the image, [226; 0; 0]; the width mirror of crop 0 has pixel
    (0, 226) there, [0; 226; 0]. *)
Lemma oversample_flip_is_not_width_mirror :
  exists crops,
    oversample (fun x : Z => x) [] ramp false = OK crops /\
    pixel (nth 5 crops []) 0 0 = [226; 0; 0] /\
    pixel (width_mirror (nth 0 crops [])) 0 0 = [0; 226; 0] /\
    nth 5 crops [] <> width_mirror (nth 0 crops []).
Proof.
  exists (ten_crops (fun x : Z => x) ramp).
  split; [apply oversample_ten, ramp_shape|].
  assert (H5 : pixel (nth 5 (ten_crops (fun x : Z => x) ramp) []) 0 0
               = [226; 0; 0]) by (vm_compute; reflexivity).
  assert (H0 : pixel (width_mirror
                        (nth 0 (ten_crops (fun x : Z => x) ramp) [])) 0 0
               = [0; 226; 0]) by (vm_compute; reflexivity).
  split; [exact H5|]. split; [exact H0|].
  intros E. rewrite E, H0 in H5. discriminate H5.
Qed.

(** C6: for every 256 x 256 x 3 image, [center_only=True] returns a batch
    of one 227 x 227 x 3 array, the crop at offset (256 - 227) / 2 = 14 on
    both axes, not mirrored; [center_only=False] returns a batch of ten
    227 x 227 x 3 arrays. *)
Theorem oversample_shapes
  {A B : Type} (astype_float32 : A -> B) (np_empty : arr3 B) (image : arr3 A) :
  has_shape 256 256 3 image = true ->
  (exists c,
     oversample astype_float32 np_empty image true = OK [c] /\
     has_shape 227 227 3 c = true /\
     (256 - INPUT_DIM) / 2 = 14 /\
     c = map3 astype_float32 (crop image 14 14) /\
     forall r k, (r < 227)%nat -> (k < 227)%nat ->
       pixel c r k = map astype_float32 (pixel image (14 + r) (14 + k))) /\
  (exists crops,
     oversample astype_float32 np_empty image false = OK crops /\
     length crops = 10%nat /\
     Forall (fun c => has_shape 227 227 3 c = true) crops).
Proof.
  intros H. split.
  - exists (map3 astype_float32 (crop image 14 14)).
    split; [apply oversample_center|].
    split; [apply has_shape_map3;
            apply (crop_shape 256 256 3); unfold INPUT_DIM; trivial; lia|].
    split; [reflexivity|]. split; [reflexivity|].
    intros r k Hr Hk. rewrite pixel_map3. f_equal.
    apply (crop_pixel 256 256 3 image 14 14);
      unfold INPUT_DIM; trivial; lia.
  - exists (ten_crops astype_float32 image).
    split; [apply oversample_ten, H|]. split; [reflexivity|].
    apply ten_crops_shape, H.
Qed.

Lemma oversample_shapes_witness :
  has_shape 256 256 3 ramp = true /\
  (exists c,
     oversample (fun x : Z => x) [] ramp true = OK [c] /\
     has_shape 227 227 3 c = true /\
     (256 - INPUT_DIM) / 2 = 14 /\
     c = map3 (fun x : Z => x) (crop ramp 14 14) /\
     forall r k, (r < 227)%nat -> (k < 227)%nat ->
       pixel c r k = map (fun x : Z => x) (pixel ramp (14 + r) (14 + k))) /\
  (exists crops,
     oversample (fun x : Z => x) [] ramp false = OK crops /\
     length crops = 10%nat /\
     Forall (fun c => has_shape 227 227 3 c = true) crops).
Proof.
  split; [exact ramp_shape|].
  apply (oversample_shapes (fun x : Z => x) [] ramp ramp_shape).
Defined.

(** C10: for every 256 x 256 x 3 image the one crop of [center_only=True]
    is crop 4 of [center_only=False]: the slice at offset 14 on each axis,
    converted to float32.  It is a 227 x 227 x 3 array whose pixel (r, k)
    is the converted pixel (14 + r, 14 + k) of the image, rows and columns
    in the image's own order. *)
Theorem oversample_center_is_crop4
  {A B : Type} (astype_float32 : A -> B) (np_empty : arr3 B) (image : arr3 A) :
  has_shape 256 256 3 image = true ->
  exists c crops,
    oversample astype_float32 np_empty image true = OK [c] /\
    oversample astype_float32 np_empty image false = OK crops /\
    nth_error crops 4 = Some c /\
    c = map3 astype_float32 (crop image 14 14) /\
    has_shape 227 227 3 c = true /\
    forall r k, (r < 227)%nat -> (k < 227)%nat ->
      pixel c r k = map astype_float32 (pixel image (14 + r) (14 + k)).
Proof.
  intros H.
  exists (map3 astype_float32 (crop image 14 14)),
         (ten_crops astype_float32 image).
  split; [apply oversample_center|].
  split; [apply oversample_ten, H|].
  split; [reflexivity|]. split; [reflexivity|].
  split.
  - apply has_shape_map3.
    apply (crop_shape 256 256 3); unfold INPUT_DIM; trivial; lia.
  - intros r k Hr Hk. rewrite pixel_map3. f_equal.
    apply (crop_pixel 256 256 3 image 14 14);
      unfold INPUT_DIM; trivial; lia.
Qed.

Lemma oversample_center_is_crop4_witness :
  has_shape 256 256 3 ramp = true /\
  exists c crops,
    oversample (fun x : Z => x) [] ramp true = OK [c] /\
    oversample (fun x : Z => x) [] ramp false = OK crops /\
    nth_error crops 4 = Some c /\
    c = map3 (fun x : Z => x) (crop ramp 14 14) /\
    has_shape 227 227 3 c = true /\
    forall r k, (r < 227)%nat -> (k < 227)%nat ->
      pixel c r k = map (fun x : Z => x) (pixel ramp (14 + r) (14 + k)).
Proof.
  split; [exact ramp_shape|].
  apply (oversample_center_is_crop4 (fun x : Z => x) [] ramp ramp_shape).
Defined.

(** *** An argsort for rational scores: insertion of the indices, last
    index first, each before the first index whose score is not smaller *)

Fixpoint insert_index (scores : list Q) (i : nat) (l : list nat) : list nat :=
  match l with
  | [] => [i]
  | j :: t =>
      if le_at Qle_bool scores i j then i :: j :: t
      else j :: insert_index scores i t
  end.

Definition insertion_argsort (scores : list Q) : list nat :=
  fold_right (insert_index scores) [] (seq 0 (length scores)).

Section InsertionFacts.

Variable scores : list Q.

Let R (i j : nat) : Prop := le_at Qle_bool scores i j = true.
Let ok (i : nat) : Prop := (i < length scores)%nat.

Lemma le_at_total (i j : nat) : ok i -> ok j -> R i j \/ R j i.
Proof.
  unfold R, ok, le_at. intros Hi Hj.
  destruct (nth_error scores i) as [a|] eqn:Ea;
    [|apply nth_error_None in Ea; lia].
  destruct (nth_error scores j) as [b|] eqn:Eb;
    [|apply nth_error_None in Eb; lia].
  rewrite !Qle_bool_iff.
  destruct (Qlt_le_dec b a) as [Hlt|Hle]; [right|left]; trivial.
  apply Qlt_le_weak, Hlt.
Qed.

Lemma le_at_trans (i j k : nat) : R i j -> R j k -> R i k.
Proof.
  unfold R, le_at.
  destruct (nth_error scores i) as [a|]; [|discriminate].
  destruct (nth_error scores j) as [b|]; [|discriminate].
  destruct (nth_error scores k) as [c|]; [|discriminate].
  rewrite !Qle_bool_iff. apply Qle_trans.
Qed.

Lemma insert_index_perm (i : nat) (l : list nat) :
  Permutation (insert_index scores i l) (i :: l).
Proof.
  induction l as [|j t IH]; simpl; [reflexivity|].
  destruct (le_at Qle_bool scores i j); [reflexivity|].
  rewrite IH. apply perm_swap.
Qed.

Lemma insert_index_sorted (i : nat) (l : list nat) :
  ok i -> Forall ok l -> StronglySorted R l ->
  StronglySorted R (insert_index scores i l).
Proof.
  intros Hi Hl Hs. induction Hs as [|j t Hs IH Hj]; simpl.
  - constructor; constructor.
  - inversion Hl as [|? ? Hokj Hokt]; subst.
    destruct (le_at Qle_bool scores i j) eqn:E.
    + constructor; [constructor; assumption|].
      constructor; [exact E|].
      eapply Forall_impl; [|exact Hj].
      intros k Hk. eapply le_at_trans; [exact E|exact Hk].
    + constructor; [apply IH, Hokt|].
      assert (Hji : R j i).
      { destruct (le_at_total i j Hi Hokj) as [H|H]; [|exact H].
        unfold R in H. congruence. }
      eapply Permutation_Forall;
        [symmetry; apply insert_index_perm|].
      constructor; assumption.
Qed.

Lemma insertion_argsort_perm :
  Permutation (insertion_argsort scores) (seq 0 (length scores)).
Proof.
  unfold insertion_argsort.
  induction (seq 0 (length scores)) as [|i l IH]; simpl; [reflexivity|].
  rewrite insert_index_perm. apply perm_skip, IH.
Qed.

Lemma insertion_argsort_sorted :
  StronglySorted R (insertion_argsort scores).
Proof.
  unfold insertion_argsort.
  assert (Hok : Forall ok (seq 0 (length scores))).
  { apply Forall_forall. intros i Hi. apply in_seq in Hi. unfold ok. lia. }
  induction (seq 0 (length scores)) as [|i l IH]; simpl; [constructor|].
  inversion Hok as [|? ? Hi Hl]; subst.
  apply insert_index_sorted; [exact Hi| |apply IH, Hl].
  eapply Permutation_Forall; [|exact Hl].
  clear. induction l as [|j t IH]; simpl; [reflexivity|].
  rewrite insert_index_perm. symmetry. apply perm_skip. symmetry. exact IH.
Qed.

End InsertionFacts.

#[export] Instance insertion_numpy : Argsort Qle_bool := {
  argsort := insertion_argsort;
  argsort_perm := insertion_argsort_perm;
  argsort_sorted := insertion_argsort_sorted
}.

(** ** Facts about top_k_prediction *)

(** How many items [l[:-(k+1):-1]] has when [l] has [n]. *)
Definition top_count (n : nat) (k : Z) : nat :=
  Z.to_nat (if k <? 0 then Z.of_nat n + k else Z.min k (Z.of_nat n)).

Lemma slice_rev_top {X} (l : list X) (k : Z) :
  slice_rev l None (Some (- (k + 1))) =
  firstn (top_count (length l) k) (rev l).
Proof.
  unfold slice_rev, top_count, adjust. rewrite firstn_rev.
  set (n := Z.of_nat (length l)).
  assert (Hn : n = Z.of_nat (length l)) by reflexivity.
  assert (Hall : forall a b,
             (length l - b <= a)%nat ->
             firstn a (skipn b l) = skipn b l)
    by (intros a b H; apply firstn_all2; rewrite length_skipn; exact H).
  destruct (Z.ltb_spec (- (k + 1)) 0) as [Hneg|Hpos].
  - destruct (Z.ltb_spec k 0); [lia|].
    destruct (Z.ltb_spec (- (k + 1) + n) 0).
    + rewrite Hall by lia. f_equal. f_equal. lia.
    + rewrite Hall by lia. f_equal. f_equal. lia.
  - destruct (Z.ltb_spec k 0); [|lia].
    destruct (Z.leb_spec n (- (k + 1))).
    + replace (Z.to_nat (n - 1 - (n - 1))) with 0%nat by lia.
      rewrite firstn_0. symmetry.
      replace (length l - Z.to_nat (n + k))%nat with (length l) by lia.
      rewrite skipn_all. reflexivity.
    + rewrite Hall by lia. f_equal. f_equal. lia.
Qed.

Lemma mapM_getitem {X} (d : X) (l : list X) (idx : list nat) :
  Forall (fun i => (i < length l)%nat) idx ->
  mapM (fun i => getitem l i) idx = OK (map (fun i => nth i l d) idx).
Proof.
  induction 1 as [|i idx Hi _ IH]; simpl; [reflexivity|].
  unfold getitem at 1.
  rewrite (nth_error_nth' l d Hi). simpl. rewrite IH. reflexivity.
Qed.

Lemma StronglySorted_snoc {X} (R : X -> X -> Prop) (l : list X) (a : X) :
  StronglySorted R l -> Forall (fun b => R b a) l ->
  StronglySorted R (l ++ [a]).
Proof.
  induction 1 as [|b t Ht IH Hb]; simpl; intros Ha.
  - constructor; constructor.
  - inversion Ha as [|? ? Hba Hta]; subst.
    constructor; [apply IH, Hta|].
    apply Forall_app. split; [exact Hb|]. constructor; [exact Hba|constructor].
Qed.

Lemma StronglySorted_rev {X} (R : X -> X -> Prop) (l : list X) :
  StronglySorted R l -> StronglySorted (fun a b => R b a) (rev l).
Proof.
  induction 1 as [|a l Hs IH Ha]; simpl; [constructor|].
  apply StronglySorted_snoc; [exact IH|].
  apply Forall_rev, Ha.
Qed.

Lemma StronglySorted_app_cross {X} (R : X -> X -> Prop) (l1 l2 : list X) :
  StronglySorted R (l1 ++ l2) ->
  forall a b, In a l1 -> In b l2 -> R a b.
Proof.
  induction l1 as [|x l1 IH]; simpl; intros Hs a b Ha Hb; [contradiction|].
  inversion Hs as [|? ? Hs' Hx]; subst.
  destruct Ha as [->|Ha].
  - rewrite Forall_forall in Hx. apply Hx, in_or_app. right. exact Hb.
  - apply IH; assumption.
Qed.

Section TopKFacts.

Context {S : Type} {leb : S -> S -> bool} {numpy : Argsort leb}.

Variable label_names : list string.
Variable scores : list S.

Lemma argsort_length : length (argsort scores) = length scores.
Proof.
  rewrite (Permutation_length (argsort_perm scores)). apply length_seq.
Qed.

Lemma argsort_in_iff (i : nat) :
  In i (argsort scores) <-> (i < length scores)%nat.
Proof.
  split; intros H.
  - apply (Permutation_in _ (argsort_perm scores)) in H.
    apply in_seq in H. lia.
  - apply (Permutation_in _ (Permutation_sym (argsort_perm scores))).
    apply in_seq. lia.
Qed.

Lemma argsort_NoDup : NoDup (argsort scores).
Proof.
  apply (Permutation_NoDup (Permutation_sym (argsort_perm scores))).
  apply seq_NoDup.
Qed.

(** The indices the call returns: the first [top_count] of the indices in
    descending order of score. *)
Definition top_indices (k : Z) : list nat :=
  firstn (top_count (length scores) k) (rev (argsort scores)).

Lemma top_indices_incl (k : Z) (i : nat) :
  In i (top_indices k) -> (i < length scores)%nat.
Proof.
  intros H. apply argsort_in_iff, in_rev.
  unfold top_indices in H.
  rewrite <- (firstn_skipn (top_count (length scores) k)).
  apply in_or_app. left. exact H.
Qed.

(** With a name for every class the call returns, whatever [k] is. *)
Lemma top_k_returns (k : Z) :
  (length scores <= length label_names)%nat ->
  top_k_prediction label_names scores k =
  OK (top_indices k,
      map (fun i => nth i label_names EmptyString) (top_indices k)).
Proof.
  intros Hlen. unfold top_k_prediction.
  rewrite slice_rev_top, argsort_length. fold (top_indices k).
  rewrite (mapM_getitem EmptyString); [reflexivity|].
  apply Forall_forall. intros i Hi. apply top_indices_incl in Hi. lia.
Qed.

Lemma top_indices_length (k : Z) :
  length (top_indices k) = top_count (length scores) k.
Proof.
  unfold top_indices. rewrite length_firstn, length_rev, argsort_length.
  unfold top_count. destruct (Z.ltb_spec k 0); lia.
Qed.

Lemma top_indices_all (k : Z) :
  Z.of_nat (length scores) <= k -> top_indices k = rev (argsort scores).
Proof.
  intros H. unfold top_indices. apply firstn_all2.
  rewrite length_rev, argsort_length. unfold top_count.
  destruct (Z.ltb_spec k 0); lia.
Qed.

Lemma top_indices_NoDup (k : Z) : NoDup (top_indices k).
Proof.
  assert (H : NoDup (rev (argsort scores))).
  { apply (Permutation_NoDup (Permutation_rev _)), argsort_NoDup. }
  rewrite <- (firstn_skipn (top_count (length scores) k)) in H.
  apply NoDup_app_remove_r in H. exact H.
Qed.

(** Every index the call returns scores at least as much as every index
    it leaves out. *)
Lemma top_indices_dominate (k : Z) (i j : nat) :
  In i (top_indices k) -> (j < length scores)%nat -> ~ In j (top_indices k) ->
  le_at leb scores j i = true.
Proof.
  intros Hi Hj Hnot.
  assert (Hs := StronglySorted_rev _ _ (argsort_sorted scores)).
  rewrite <- (firstn_skipn (top_count (length scores) k)) in Hs.
  apply (StronglySorted_app_cross _ _ _ Hs i j Hi).
  apply argsort_in_iff, in_rev in Hj.
  rewrite <- (firstn_skipn (top_count (length scores) k)) in Hj.
  apply in_app_or in Hj. destruct Hj as [Hj|Hj]; [|exact Hj].
  contradiction.
Qed.

End TopKFacts.

(** ** The claims about top_k_prediction *)

(** A score vector of 1000 rationals (class i scores (i mod 10) / 1000)
    and 1000 label names. *)
Definition sample_scores : list Q :=
  map (fun i => Z.of_nat (i mod 10) # 1000) (seq 0 1000).

Definition sample_labels : list string :=
  map (fun i => String (Ascii.ascii_of_nat (65 + i mod 26))
                       (String (Ascii.ascii_of_nat (48 + i mod 10))
                               EmptyString))
      (seq 0 1000).

Lemma sample_scores_length : length sample_scores = 1000%nat.
Proof. reflexivity. Qed.

Lemma sample_labels_length : length sample_labels = 1000%nat.
Proof. reflexivity. Qed.

(** C7: for every 1000-element score vector and every k with
    1 <= k <= 1000 the call returns k distinct indices of the vector, each
    scoring at least as much as every index it leaves out, and as many
    names, the i-th being the label of the i-th returned index. *)
Theorem top_k_in_range
  {S : Type} {leb : S -> S -> bool} {numpy : Argsort leb}
  (label_names : list string) (scores : list S) (k : Z) :
  length scores = 1000%nat ->
  length label_names = 1000%nat ->
  1 <= k <= 1000 ->
  exists indices names,
    top_k_prediction label_names scores k = OK (indices, names) /\
    Z.of_nat (length indices) = k /\
    NoDup indices /\
    (forall i j, In i indices -> (j < 1000)%nat -> ~ In j indices ->
                 le_at leb scores j i = true) /\
    length names = length indices /\
    forall n, (n < length indices)%nat ->
      exists name, nth_error names n = Some name /\
                   nth_error label_names (nth n indices O) = Some name.
Proof.
  intros Hs Hl Hk.
  exists (top_indices scores k),
         (map (fun i => nth i label_names EmptyString) (top_indices scores k)).
  split; [apply top_k_returns; lia|].
  split.
  { rewrite top_indices_length, Hs. unfold top_count.
    destruct (Z.ltb_spec k 0); lia. }
  split; [apply top_indices_NoDup|].
  split.
  { intros i j Hi Hj. apply top_indices_dominate; [exact Hi|lia]. }
  split; [apply length_map|].
  intros n Hn.
  exists (nth (nth n (top_indices scores k) O) label_names EmptyString).
  split.
  - rewrite nth_error_map.
    rewrite (nth_error_nth' _ O Hn). reflexivity.
  - apply nth_error_nth'.
    assert (In (nth n (top_indices scores k) O) (top_indices scores k))
      by (apply nth_In, Hn).
    apply top_indices_incl in H. lia.
Qed.

Lemma top_k_in_range_witness :
  length sample_scores = 1000%nat /\
  length sample_labels = 1000%nat /\
  1 <= 5 <= 1000 /\
  exists indices names,
    top_k_prediction sample_labels sample_scores 5 = OK (indices, names) /\
    Z.of_nat (length indices) = 5 /\
    NoDup indices /\
    (forall i j, In i indices -> (j < 1000)%nat -> ~ In j indices ->
                 le_at Qle_bool sample_scores j i = true) /\
    length names = length indices /\
    forall n, (n < length indices)%nat ->
      exists name, nth_error names n = Some name /\
                   nth_error sample_labels (nth n indices O) = Some name.
Proof.
  split; [reflexivity|]. split; [reflexivity|]. split; [lia|].
  apply (top_k_in_range sample_labels sample_scores 5);
    [reflexivity|reflexivity|lia].
Defined.

(** C9: for every 1000-element score vector (with its 1000 label names)
    k = 0 returns no index and no name, and every k > 1000 returns all
    1000 indices in descending order of score with their names; neither
    raises. *)
Theorem top_k_zero_and_beyond
  {S : Type} {leb : S -> S -> bool} {numpy : Argsort leb}
  (label_names : list string) (scores : list S) :
  length scores = 1000%nat ->
  length label_names = 1000%nat ->
  top_k_prediction label_names scores 0 = OK ([], []) /\
  forall k, 1000 < k ->
    exists indices names,
      top_k_prediction label_names scores k = OK (indices, names) /\
      Permutation indices (seq 0 1000) /\
      StronglySorted (fun i j => le_at leb scores j i = true) indices /\
      names = map (fun i => nth i label_names EmptyString) indices.
Proof.
  intros Hs Hl. split.
  - rewrite top_k_returns by lia. unfold top_indices.
    rewrite Hs. reflexivity.
  - intros k Hk.
    exists (rev (argsort scores)),
           (map (fun i => nth i label_names EmptyString)
                (rev (argsort scores))).
    split.
    { rewrite top_k_returns by lia.
      rewrite top_indices_all by lia. reflexivity. }
    split.
    { rewrite <- Hs. rewrite <- (argsort_perm scores).
      symmetry. apply Permutation_rev. }
    split; [|reflexivity].
    apply (StronglySorted_rev _ _ (argsort_sorted scores)).
Qed.

Lemma top_k_zero_and_beyond_witness :
  length sample_scores = 1000%nat /\
  length sample_labels = 1000%nat /\
  top_k_prediction sample_labels sample_scores 0 = OK ([], []) /\
  forall k, 1000 < k ->
    exists indices names,
      top_k_prediction sample_labels sample_scores k = OK (indices, names) /\
      Permutation indices (seq 0 1000) /\
      StronglySorted (fun i j => le_at Qle_bool sample_scores j i = true)
                     indices /\
      names = map (fun i => nth i sample_labels EmptyString) indices.
Proof.
  split; [reflexivity|]. split; [reflexivity|].
  apply (top_k_zero_and_beyond sample_labels sample_scores);
    reflexivity.
Defined.

(** C1, as the code has it: for every 1000-element score vector (with its
    1000 label names) and every k outside 1 <= k <= 1000 the call raises
    nothing and returns the first indices of the descending order, each
    scoring at least as much as every index left out, and their names,
    the n-th name being the label of the n-th index: none for k = 0, all
    1000 for k > 1000, and 1000 + k of them (none below -1000) for
    k < 0. *)
Theorem top_k_out_of_range_returns
  {S : Type} {leb : S -> S -> bool} {numpy : Argsort leb}
  (label_names : list string) (scores : list S) (k : Z) :
  length scores = 1000%nat ->
  length label_names = 1000%nat ->
  k < 1 \/ 1000 < k ->
  exists indices names,
    top_k_prediction label_names scores k = OK (indices, names) /\
    length names = length indices /\
    indices = firstn (length indices) (rev (argsort scores)) /\
    (k = 0 -> indices = []) /\
    (1000 < k -> length indices = 1000%nat) /\
    (k < 0 -> length indices = Z.to_nat (1000 + k)) /\
    NoDup indices /\
    (forall i j, In i indices -> (j < 1000)%nat -> ~ In j indices ->
                 le_at leb scores j i = true) /\
    (forall n, (n < length indices)%nat ->
       (nth n indices O < 1000)%nat /\
       exists name, nth_error names n = Some name /\
                    nth_error label_names (nth n indices O) = Some name).
Proof.
  intros Hs Hl Hk.
  exists (top_indices scores k),
         (map (fun i => nth i label_names EmptyString) (top_indices scores k)).
  split; [apply top_k_returns; lia|].
  split; [apply length_map|].
  split; [rewrite top_indices_length; reflexivity|].
  assert (Hlen := top_indices_length scores k).
  rewrite Hs in Hlen. unfold top_count in Hlen.
  split; [|split; [|split; [|split; [|split]]]].
  - intros H. subst k. simpl in Hlen.
    destruct (top_indices scores 0); [reflexivity|discriminate].
  - intros H. destruct (Z.ltb_spec k 0); lia.
  - intros H. destruct (Z.ltb_spec k 0); [|lia]. rewrite Hlen. f_equal.
  - apply top_indices_NoDup.
  - intros i j Hi Hj. apply top_indices_dominate; [exact Hi|lia].
  - intros n Hn.
    assert (Hin : In (nth n (top_indices scores k) O) (top_indices scores k))
      by (apply nth_In, Hn).
    apply top_indices_incl in Hin.
    split; [lia|].
    exists (nth (nth n (top_indices scores k) O) label_names EmptyString).
    split.
    + rewrite nth_error_map.
      rewrite (nth_error_nth' _ O Hn). reflexivity.
    + apply nth_error_nth'. lia.
Qed.

Lemma top_k_out_of_range_returns_witness :
  length sample_scores = 1000%nat /\
  length sample_labels = 1000%nat /\
  (1001 < 1 \/ 1000 < 1001) /\
  exists indices names,
    top_k_prediction sample_labels sample_scores 1001 = OK (indices, names) /\
    length names = length indices /\
    indices = firstn (length indices) (rev (argsort sample_scores)) /\
    (1001 = 0 -> indices = []) /\
    (1000 < 1001 -> length indices = 1000%nat) /\
    (1001 < 0 -> length indices = Z.to_nat (1000 + 1001)) /\
    NoDup indices /\
    (forall i j, In i indices -> (j < 1000)%nat -> ~ In j indices ->
                 le_at Qle_bool sample_scores j i = true) /\
    (forall n, (n < length indices)%nat ->
       (nth n indices O < 1000)%nat /\
       exists name, nth_error names n = Some name /\
                    nth_error sample_labels (nth n indices O) = Some name).
Proof.
  split; [reflexivity|]. split; [reflexivity|]. split; [right; lia|].
  apply (top_k_out_of_range_returns sample_labels sample_scores 1001);
    [reflexivity|reflexivity|right; lia].
Defined.

(** C1 as the spec words it fails: on the sample vector k = 0 and
    k = 1001 both return a result, the empty one and one of 1000 indices,
    where the spec wants an error. *)
Lemma top_k_out_of_range_no_error :
  top_k_prediction sample_labels sample_scores 0 = OK ([], []) /\
  exists indices names,
    top_k_prediction sample_labels sample_scores 1001 = OK (indices, names) /\
    length indices = 1000%nat /\ length names = 1000%nat.
Proof.
  split.
  - rewrite top_k_returns by (rewrite sample_scores_length; reflexivity).
    reflexivity.
  - exists (top_indices sample_scores 1001),
           (map (fun i => nth i sample_labels EmptyString)
                (top_indices sample_scores 1001)).
    split; [apply top_k_returns; rewrite sample_scores_length; reflexivity|].
    assert (H : length (top_indices sample_scores 1001) = 1000%nat)
      by (rewrite top_indices_length; reflexivity).
    split; [exact H|]. rewrite length_map. exact H.
Qed.

(** ** The claim about __init__ *)

Section LoaderFacts.

Context {Obj Net Mean : Type}.
Variable pickle_load : list Byte.byte -> result Obj.
Variable subscript : Obj -> string -> result Obj.
Variable translate_cuda_network : Obj -> Z * Z * Z -> result Net.
Variable img_cudaconv_to_decaf : Obj -> Z -> Z -> result Mean.
Variable fs : string -> option (list Byte.byte).
Variable _JEFFNET_FILE : string.
Variable _META_FILE : string.

(** The file can be opened and unpickled. *)
Definition readable (path : string) : Prop :=
  exists bytes obj, fs path = Some bytes /\ pickle_load bytes = OK obj.

Let load := load_files pickle_load fs _JEFFNET_FILE _META_FILE.
Let init' := __init__ pickle_load subscript translate_cuda_network
                  img_cudaconv_to_decaf fs _JEFFNET_FILE _META_FILE.
Let new' := new pickle_load subscript translate_cuda_network
                img_cudaconv_to_decaf fs _JEFFNET_FILE _META_FILE
                (Net := Net) (Mean := Mean).

(** When the [try] block raises, so do [__init__] and the constructor,
    and no attribute has been set. *)
Lemma init_load_raises (net_file meta_file : option string) (e : exn) :
  load net_file meta_file = Raise e ->
  init' blank net_file meta_file = (blank, Raise e) /\
  new' net_file meta_file = Raise e.
Proof.
  intros H. unfold new', new. fold init'. unfold init', __init__.
  fold load. rewrite H. split; reflexivity.
Qed.

(** What the [try] block does, by the first step that fails. *)
Lemma load_files_cases (net_file meta_file : option string) :
  let nf := or_default net_file _JEFFNET_FILE in
  let mf := or_default meta_file _META_FILE in
  load net_file meta_file =
  except_IOError
    (match fs nf with
     | None => Raise IOError
     | Some f =>
         match pickle_load f with
         | inl e => Raise e
         | inr cuda =>
             match fs mf with
             | None => Raise IOError
             | Some g =>
                 match pickle_load g with
                 | inl e => Raise e
                 | inr meta => OK (cuda, meta)
                 end
             end
         end
     end)
    (RuntimeError "Cannot find JeffNet files.").
Proof.
  intros nf mf. unfold load, load_files, open. fold nf mf.
  destruct (fs nf) as [f|]; simpl; [|reflexivity].
  destruct (pickle_load f) as [e|cuda]; simpl; [reflexivity|].
  destruct (fs mf) as [g|]; simpl; [|reflexivity].
  destruct (pickle_load g) as [e|meta]; reflexivity.
Qed.

Lemma load_unreadable_raises (net_file meta_file : option string) :
  let nf := or_default net_file _JEFFNET_FILE in
  let mf := or_default meta_file _META_FILE in
  ~ readable nf \/ ~ readable mf ->
  exists e, load net_file meta_file = Raise e.
Proof.
  intros nf mf H. rewrite load_files_cases. fold nf mf.
  destruct (fs nf) as [f|] eqn:Ef; [|eexists; reflexivity].
  destruct (pickle_load f) as [e|cuda] eqn:Eu.
  { destruct e; eexists; reflexivity. }
  destruct (fs mf) as [g|] eqn:Eg; [|eexists; reflexivity].
  destruct (pickle_load g) as [e|meta] eqn:Ev.
  { destruct e; eexists; reflexivity. }
  exfalso. destruct H as [H|H]; apply H.
  - exists f, cuda. split; assumption.
  - exists g, meta. split; assumption.
Qed.

End LoaderFacts.

(** A small world to run the loader in: an unpickler that wants the
    protocol-2 marker as first byte, raises EOFError on an empty file and
    UnpicklingError on any other first byte; collaborators that accept
    everything; and four files, two of them sound. *)
Definition toy_pickle_load (bytes : list Byte.byte)
  : result (list Byte.byte) :=
  match bytes with
  | [] => Raise EOFError
  | Byte.x80 :: rest => OK rest
  | _ :: _ => Raise UnpicklingError
  end.

Definition toy_subscript (obj : list Byte.byte) (key : string)
  : result (list Byte.byte) := OK obj.

Definition toy_translate (obj : list Byte.byte) (shape : Z * Z * Z)
  : result unit := OK tt.

Definition toy_mean (obj : list Byte.byte) (size channels : Z)
  : result unit := OK tt.

Definition toy_fs (path : string) : option (list Byte.byte) :=
  if String.eqb path "net" then Some [Byte.x80; Byte.x02; Byte.x2e]
  else if String.eqb path "meta" then Some [Byte.x80; Byte.x02; Byte.x2e]
  else if String.eqb path "garbage" then Some [Byte.x41; Byte.x42]
  else if String.eqb path "empty" then Some []
  else None.

Definition toy_new (net_file meta_file : option string)
  : result (JeffNet unit (list Byte.byte) unit) :=
  new toy_pickle_load toy_subscript toy_translate toy_mean toy_fs
      "net"%string "meta"%string net_file meta_file.

(** C3, as the code has it: whenever either source cannot be read,
    [__init__] raises, no attribute of the object has been set, and the
    caller gets no object. The error is the RuntimeError 'Cannot find
    JeffNet files.' when the first failure is a file that cannot be
    opened; when it is data that cannot be unpickled, it is the
    unpickler's own exception, passed on as it is. *)
Theorem init_unreadable_fails
  {Obj Net Mean : Type}
  (pickle_load : list Byte.byte -> result Obj)
  (subscript : Obj -> string -> result Obj)
  (translate_cuda_network : Obj -> Z * Z * Z -> result Net)
  (img_cudaconv_to_decaf : Obj -> Z -> Z -> result Mean)
  (fs : string -> option (list Byte.byte))
  (_JEFFNET_FILE _META_FILE : string)
  (net_file meta_file : option string) :
  let nf := or_default net_file _JEFFNET_FILE in
  let mf := or_default meta_file _META_FILE in
  let run := __init__ pickle_load subscript translate_cuda_network
                  img_cudaconv_to_decaf fs _JEFFNET_FILE _META_FILE
                  blank net_file meta_file in
  let made := new pickle_load subscript translate_cuda_network
                  img_cudaconv_to_decaf fs _JEFFNET_FILE _META_FILE
                  net_file meta_file in
  let not_found := RuntimeError "Cannot find JeffNet files."%string in
  (~ readable pickle_load fs nf \/ ~ readable pickle_load fs mf ->
   exists e, run = (blank, Raise e) /\ made = Raise e) /\
  (fs nf = None \/ (readable pickle_load fs nf /\ fs mf = None) ->
   run = (blank, Raise not_found) /\ made = Raise not_found) /\
  (forall bytes e, e <> IOError ->
     (fs nf = Some bytes /\ pickle_load bytes = Raise e) \/
     (readable pickle_load fs nf /\
      fs mf = Some bytes /\ pickle_load bytes = Raise e) ->
     run = (blank, Raise e) /\ made = Raise e).
Proof.
  intros nf mf run made not_found.
  assert (Hcases := load_files_cases pickle_load fs _JEFFNET_FILE _META_FILE
                                     net_file meta_file).
  cbv zeta in Hcases. fold nf mf in Hcases.
  split; [|split].
  - intros H.
    destruct (load_unreadable_raises pickle_load fs _JEFFNET_FILE _META_FILE
                net_file meta_file H) as [e He].
    exists e. apply init_load_raises, He.
  - intros H. apply init_load_raises. rewrite Hcases.
    destruct H as [H|[(f & cuda & Hf & Hc) H]].
    + rewrite H. reflexivity.
    + rewrite Hf, Hc, H. reflexivity.
  - intros bytes e Hne H. apply init_load_raises. rewrite Hcases.
    destruct H as [[Hf He]|[(f & cuda & Hf & Hc) [Hg He]]].
    + rewrite Hf, He. destruct e; try reflexivity. contradiction.
    + rewrite Hf, Hc, Hg, He. destruct e; try reflexivity. contradiction.
Qed.

Lemma init_unreadable_fails_witness :
  toy_new (Some "absent"%string) None
    = Raise (RuntimeError "Cannot find JeffNet files."%string) /\
  toy_new None (Some "empty"%string) = Raise EOFError.
Proof.
  split.
  - apply (proj1 (proj2 (init_unreadable_fails
             toy_pickle_load toy_subscript toy_translate toy_mean toy_fs
             "net"%string "meta"%string (Some "absent"%string) None))).
    left. reflexivity.
  - apply (proj2 (proj2 (init_unreadable_fails
             toy_pickle_load toy_subscript toy_translate toy_mean toy_fs
             "net"%string "meta"%string None (Some "empty"%string)))
           [] EOFError).
    + discriminate.
    + right. split; [|split; reflexivity].
      exists [Byte.x80; Byte.x02; Byte.x2e], [Byte.x02; Byte.x2e].
      split; reflexivity.
Defined.

(** C3 as the spec words it fails: a weights file that holds garbage makes
    the constructor raise the unpickler's UnpicklingError, not the
    RuntimeError of the missing file. *)
Lemma init_corrupt_is_not_load_error :
  toy_fs "garbage"%string = Some [Byte.x41; Byte.x42] /\
  toy_pickle_load [Byte.x41; Byte.x42] = Raise UnpicklingError /\
  toy_new (Some "garbage"%string) None = Raise UnpicklingError.
Proof. repeat split. Qed.

Local Open Scope Q_scope.

(** *** A resize to run the code with: nearest neighbour *)

Definition nearest (a : arr3 Q) (rows cols : Z) : arr3 Q :=
  let h := Z.of_nat (length a) in
  let w := Z.of_nat (length (hd [] a)) in
  map (fun r =>
         map (fun c =>
                nth (Z.to_nat (Z.of_nat c * w / cols))
                    (nth (Z.to_nat (Z.of_nat r * h / rows)) a []) [])
             (seq 0 (Z.to_nat cols)))
      (seq 0 (Z.to_nat rows)).

(** skimage's [img_as_float] *)
Definition as_float (d : np_dtype) (v : Q) : Q :=
  match d with
  | uint8 => v / 255
  | float32 | float64 => v
  end.

Definition nearest_resize (im : ndarray) (shape : Z * Z) : result ndarray :=
  OK {| dtype := float64;
        data := map3 (as_float (dtype im))
                     (nearest (data im) (fst shape) (snd shape)) |}.

Lemma within_spec (lo hi : Q) (a : arr3 Q) :
  within lo hi a = true <->
  forall row px v, In row a -> In px row -> In v px -> lo <= v <= hi.
Proof.
  unfold within. rewrite forallb_forall. split.
  - intros H row px v Hrow Hpx Hv.
    specialize (H row Hrow). rewrite forallb_forall in H.
    specialize (H px Hpx). rewrite forallb_forall in H.
    specialize (H v Hv). apply andb_true_iff in H.
    rewrite !Qle_bool_iff in H. exact H.
  - intros H row Hrow. apply forallb_forall. intros px Hpx.
    apply forallb_forall. intros v Hv.
    apply andb_true_iff. rewrite !Qle_bool_iff. eauto.
Qed.

Lemma scaled_index_bound (i n m : Z) :
  (0 <= i < m)%Z -> (0 <= n)%Z -> (0 <= i * n / m < Z.max n 1)%Z.
Proof.
  intros Hi Hn. split.
  - apply Z.div_pos; nia.
  - destruct (Z.eq_dec n 0) as [->|Hn0].
    + rewrite Z.mul_0_r, Z.div_0_l by lia. lia.
    + apply Z.div_lt_upper_bound; nia.
Qed.

Lemma nearest_pixel_in (h w c : nat) (a : arr3 Q) (rows cols : Z)
      (row : list (list Q)) (px : list Q) :
  has_shape h w c a = true -> (1 <= h)%nat -> (1 <= w)%nat ->
  In row (nearest a rows cols) -> In px row ->
  exists row0, In row0 a /\ In px row0.
Proof.
  intros Hs Hh Hw Hrow Hpx.
  apply has_shape_spec in Hs. destruct Hs as [Hlen Hrows].
  unfold nearest in Hrow. apply in_map_iff in Hrow.
  destruct Hrow as (r & <- & Hr). apply in_seq in Hr.
  apply in_map_iff in Hpx. destruct Hpx as (k & <- & Hk). apply in_seq in Hk.
  set (i := Z.to_nat (Z.of_nat r * Z.of_nat (length a) / rows)).
  assert (Hi : (i < length a)%nat).
  { unfold i.
    pose proof (scaled_index_bound (Z.of_nat r) (Z.of_nat (length a)) rows).
    lia. }
  exists (nth i a []). split; [apply nth_In, Hi|].
  assert (Hin : In (nth i a []) a) by (apply nth_In, Hi).
  rewrite Forall_forall in Hrows.
  destruct (Hrows _ Hin) as [Hwi _].
  assert (Hhd : length (hd [] a) = w).
  { destruct a as [|row0 t]; [simpl in Hlen; lia|].
    destruct (Hrows row0 (or_introl eq_refl)) as [H0 _]. exact H0. }
  apply nth_In. rewrite Hhd, Hwi.
  pose proof (scaled_index_bound (Z.of_nat k) (Z.of_nat w) cols). lia.
Qed.

Lemma nearest_shape (h w c : nat) (a : arr3 Q) (rows cols : Z) :
  has_shape h w c a = true -> (1 <= h)%nat -> (1 <= w)%nat ->
  has_shape (Z.to_nat rows) (Z.to_nat cols) c (nearest a rows cols) = true.
Proof.
  intros Hs Hh Hw. apply has_shape_spec. split.
  - unfold nearest. rewrite length_map, length_seq. reflexivity.
  - apply Forall_forall. intros row Hrow. split.
    + unfold nearest in Hrow. apply in_map_iff in Hrow.
      destruct Hrow as (r & <- & _). rewrite length_map, length_seq.
      reflexivity.
    + apply Forall_forall. intros px Hpx.
      destruct (nearest_pixel_in h w c a rows cols row px Hs Hh Hw Hrow Hpx)
        as (row0 & Hrow0 & Hpx0).
      apply has_shape_spec in Hs. destruct Hs as [_ Hrows].
      rewrite Forall_forall in Hrows. destruct (Hrows _ Hrow0) as [_ Hp].
      rewrite Forall_forall in Hp. apply Hp, Hpx0.
Qed.

Lemma nearest_resize_spec (d : np_dtype) (a : arr3 Q) (h w c : nat)
      (rows cols : Z) :
  has_shape h w c a = true ->
  (1 <= h)%nat -> (1 <= w)%nat ->
  (1 <= rows)%Z -> (1 <= cols)%Z ->
  exists out,
    nearest_resize {| dtype := d; data := a |} (rows, cols)
      = OK {| dtype := float64; data := out |} /\
    has_shape (Z.to_nat rows) (Z.to_nat cols) c out = true /\
    (d = uint8 -> within 0 255 a = true -> within 0 1 out = true).
Proof.
  intros Hs Hh Hw Hr Hc.
  exists (map3 (as_float d) (nearest a rows cols)).
  split; [reflexivity|]. split.
  - apply has_shape_map3, (nearest_shape h w c); assumption.
  - intros -> Hin. apply within_spec. intros row px v Hrow Hpx Hv.
    unfold map3 in Hrow. apply in_map_iff in Hrow.
    destruct Hrow as (row' & <- & Hrow').
    apply in_map_iff in Hpx. destruct Hpx as (px' & <- & Hpx').
    apply in_map_iff in Hv. destruct Hv as (v' & <- & Hv').
    destruct (nearest_pixel_in h w c a rows cols row' px' Hs Hh Hw Hrow' Hpx')
      as (row0 & Hrow0 & Hpx0).
    rewrite within_spec in Hin.
    destruct (Hin row0 px' v' Hrow0 Hpx0 Hv') as [Hlo Hhi].
    unfold as_float. split.
    + apply Qle_shift_div_l; [reflexivity|]. rewrite Qmult_0_l. exact Hlo.
    + apply Qle_shift_div_r; [reflexivity|]. rewrite Qmult_1_l. exact Hhi.
Qed.

#[export] Instance nearest_skimage : Skimage := {
  resize := nearest_resize;
  resize_spec := nearest_resize_spec
}.

(** ** Facts about the normalisation *)

Lemma within_times_255 (a : arr3 Q) :
  within 0 1 a = true ->
  within 0 255 (map3 (fun v => v * 255) a) = true.
Proof.
  rewrite !within_spec. intros H row px v Hrow Hpx Hv.
  unfold map3 in Hrow. apply in_map_iff in Hrow.
  destruct Hrow as (row' & <- & Hrow').
  apply in_map_iff in Hpx. destruct Hpx as (px' & <- & Hpx').
  apply in_map_iff in Hv. destruct Hv as (v' & <- & Hv').
  destruct (H row' px' v' Hrow' Hpx' Hv') as [Hlo Hhi]. split.
  - apply Qmult_le_0_compat; [exact Hlo|discriminate].
  - setoid_replace 255 with (1 * 255) at 2 by reflexivity.
    apply Qmult_le_compat_r; [exact Hhi|discriminate].
Qed.

(** The rounding of lines 124 and 126, for a quotient that is not
    negative: the floor of q + 1/2, an integer nearest to q. *)
Lemma py_int_half_up (q : Q) :
  0 <= q ->
  py_int (q + (1 # 2)) = Qfloor (q + (1 # 2)) /\
  Qabs (inject_Z (py_int (q + (1 # 2))) - q) <= 1 # 2.
Proof.
  intros Hq. unfold py_int.
  assert (H0 : Qle_bool 0 (q + (1 # 2)) = true).
  { apply Qle_bool_iff.
    apply Qle_trans with q; [exact Hq|].
    rewrite <- (Qplus_0_r q) at 1. apply Qplus_le_r. discriminate. }
  rewrite H0. split; [reflexivity|].
  pose proof (Qfloor_le (q + (1 # 2))) as Hle.
  pose proof (Qlt_floor (q + (1 # 2))) as Hlt.
  set (n := Qfloor (q + (1 # 2))) in *.
  rewrite inject_Z_plus in Hlt. change (inject_Z 1) with 1 in Hlt.
  apply Qabs_Qle_condition. split; lra.
Qed.

(** [dim * 256 / other], the exact quotient. *)
Definition scaled (dim other : Z) : Q := inject_Z dim * 256 / inject_Z other.

Lemma scaled_bounds (dim other : Z) :
  (1 <= other)%Z -> (other <= dim)%Z -> 256 <= scaled dim other.
Proof.
  intros H1 H2. unfold scaled.
  assert (Ho : 0 < inject_Z other)
    by (change 0 with (inject_Z 0); rewrite <- Zlt_Qlt; lia).
  apply Qle_shift_div_l; [exact Ho|].
  assert (Hd : inject_Z other <= inject_Z dim) by (rewrite <- Zle_Qle; lia).
  revert Ho Hd. generalize (inject_Z other), (inject_Z dim). intros o d Ho Hd.
  lra.
Qed.

Lemma true_div_ok (a : Q) (b : Z) :
  (1 <= b)%Z -> true_div a (inject_Z b) = OK (a / inject_Z b).
Proof.
  intros Hb. unfold true_div.
  destruct (Qeq_bool (inject_Z b) 0) eqn:E; [|reflexivity].
  apply Qeq_bool_iff in E. unfold Qeq in E. simpl in E. lia.
Qed.

Lemma round_scaled (dim other : Z) :
  (1 <= other)%Z -> (other <= dim)%Z ->
  py_int (scaled dim other + (1 # 2)) = Qfloor (scaled dim other + (1 # 2)) /\
  Qabs (inject_Z (py_int (scaled dim other + (1 # 2))) - scaled dim other)
    <= 1 # 2 /\
  (256 <= py_int (scaled dim other + (1 # 2)))%Z.
Proof.
  intros H1 H2. pose proof (scaled_bounds dim other H1 H2) as Hb.
  assert (H0 : 0 <= scaled dim other) by lra.
  destruct (py_int_half_up _ H0) as [Hf Hn].
  split; [exact Hf|]. split; [exact Hn|].
  rewrite Hf. rewrite <- (Qfloor_Z 256).
  apply Qfloor_resp_le. change (inject_Z 256) with 256. lra.
Qed.

(** The target shape, for an image with at least one row and column. *)
Lemma newshape_cases (height width : Z) :
  (1 <= height)%Z -> (1 <= width)%Z ->
  newshape height width =
  OK (if (height <? width)%Z
      then (256%Z, py_int (scaled width height + (1 # 2)))
      else (py_int (scaled height width + (1 # 2)), 256%Z)).
Proof.
  intros Hh Hw. unfold newshape, scaled.
  destruct (height <? width)%Z; rewrite true_div_ok by assumption;
    reflexivity.
Qed.

Lemma newshape_at_least_256 (height width : Z) :
  (1 <= height)%Z -> (1 <= width)%Z ->
  exists rows cols,
    newshape height width = OK (rows, cols) /\
    (256 <= rows)%Z /\ (256 <= cols)%Z.
Proof.
  intros Hh Hw. rewrite newshape_cases by assumption.
  destruct (Z.ltb_spec height width).
  - eexists _, _. split; [reflexivity|]. split; [lia|].
    apply round_scaled; lia.
  - eexists _, _. split; [reflexivity|]. split; [|lia].
    apply round_scaled; lia.
Qed.

Section NormalizeFacts.

Context {skimage : Skimage}.

Lemma resized_spec (im : ndarray) (h w c : nat) :
  has_shape h w c (data im) = true -> (1 <= h)%nat -> (1 <= w)%nat ->
  exists rows cols out,
    newshape (Z.of_nat h) (Z.of_nat w) = OK (rows, cols) /\
    (256 <= rows)%Z /\ (256 <= cols)%Z /\
    resized im = OK {| dtype := float64;
                       data := map3 (fun v => v * 255) out |} /\
    has_shape (Z.to_nat rows) (Z.to_nat cols) c out = true /\
    (dtype im = uint8 -> within 0 255 (data im) = true ->
     within 0 1 out = true).
Proof.
  intros Hs Hh Hw.
  destruct (newshape_at_least_256 (Z.of_nat h) (Z.of_nat w))
    as (rows & cols & Hn & Hr & Hc); [lia|lia|].
  destruct im as [d a]. simpl in Hs.
  destruct (resize_spec d a h w c rows cols Hs Hh Hw) as (out & Ho & Hso & Hin);
    [lia|lia|].
  exists rows, cols, out.
  split; [exact Hn|]. split; [exact Hr|]. split; [exact Hc|].
  split; [|split; [exact Hso|exact Hin]].
  unfold resized. simpl data.
  rewrite (shape3_of_has_shape h w c a Hs Hh Hw). simpl fst. simpl snd.
  rewrite Hn. simpl. rewrite Ho. reflexivity.
Qed.

Lemma flip_and_center_shape (im : ndarray) (c : nat) (rows cols : Z) :
  has_shape (Z.to_nat rows) (Z.to_nat cols) c (data im) = true ->
  (256 <= rows)%Z -> (256 <= cols)%Z ->
  has_shape 256 256 c (data (flip_and_center im)) = true /\
  dtype (flip_and_center im) = dtype im.
Proof.
  intros Hs Hr Hc. split; [|reflexivity].
  unfold flip_and_center, _JEFFNET_FLIP. cbv zeta. simpl data.
  rewrite slice_rev_all.
  rewrite (map_ext _ (fun row => row)) by (intros row; apply slice_all).
  rewrite map_id.
  assert (Hrev := has_shape_rev _ _ _ _ Hs).
  assert (E : shape3 (rev (data im)) = (Z.to_nat rows, Z.to_nat cols, c))
    by (apply shape3_of_has_shape; [exact Hrev|lia|lia]).
  unfold shape3 in E. injection E as E1 E2 _.
  rewrite E1, E2, !Z2Nat.id by lia.
  apply (slice2_shape (Z.to_nat rows) (Z.to_nat cols) c (rev (data im))
           ((rows - 256) / 2) ((cols - 256) / 2) 256 256 Hrev).
  - apply Z.div_pos; lia.
  - lia.
  - rewrite Z2Nat.id by lia.
    pose proof (Z.mul_div_le (rows - 256) 2). lia.
  - apply Z.div_pos; lia.
  - lia.
  - rewrite Z2Nat.id by lia.
    pose proof (Z.mul_div_le (cols - 256) 2). lia.
Qed.

Lemma isub_shape (a b : ndarray) (h w c : nat) :
  has_shape h w c (data a) = true -> has_shape h w c (data b) = true ->
  (1 <= h)%nat -> (1 <= w)%nat ->
  isub a b = OK {| dtype := dtype a; data := zip3 Qminus (data a) (data b) |}
  /\ has_shape h w c (zip3 Qminus (data a) (data b)) = true.
Proof.
  intros Ha Hb Hh Hw. split; [|apply zip3_shape; assumption].
  unfold isub. rewrite (shape3_of_has_shape h w c _ Ha Hh Hw).
  rewrite (broadcast_to_same h w c _ Hb). reflexivity.
Qed.

(** The canonical image of an image whose three-channel form is
    h x w x 3. *)
Lemma normalize_spec (data_mean : ndarray) (im : image) (h w : nat) :
  has_shape h w 3 (data (three_channels im)) = true ->
  (1 <= h)%nat -> (1 <= w)%nat ->
  has_shape 256 256 3 (data data_mean) = true ->
  exists out,
    normalize data_mean im = OK out /\
    has_shape 256 256 3 (data out) = true /\
    dtype out = float64.
Proof.
  intros Hs Hh Hw Hm.
  destruct (resized_spec _ h w 3 Hs Hh Hw)
    as (rows & cols & out & _ & Hr & Hc & Hre & Hso & _).
  unfold normalize. rewrite Hre. simpl bind.
  set (im' := {| dtype := float64; data := map3 (fun v => v * 255) out |}).
  assert (Hs' : has_shape (Z.to_nat rows) (Z.to_nat cols) 3 (data im') = true)
    by (apply has_shape_map3, Hso).
  destruct (flip_and_center_shape im' 3 rows cols Hs' Hr Hc) as [Hf Hd].
  destruct (isub_shape (flip_and_center im') data_mean 256 256 3 Hf Hm)
    as [Hi Hz]; [lia|lia|].
  eexists. split; [exact Hi|]. split; [exact Hz|]. exact Hd.
Qed.

Lemma broadcast_to_one_channel {X} (h w h' w' : nat) (b : arr3 X) :
  has_shape (S h) (S w) 3 b = true ->
  broadcast_to h' w' 1 b = Raise ValueError.
Proof.
  rewrite has_shape_spec. intros [Hlen Hrows].
  destruct b as [|row rest]; [discriminate Hlen|].
  inversion Hrows as [|? ? [Hw Hpx] _]; subst.
  destruct row as [|px r]; [discriminate Hw|].
  inversion Hpx as [|? ? Hc _]; subst.
  destruct px as [|x [|y [|z [|t px]]]]; try discriminate Hc.
  reflexivity.
Qed.

(** An image with a single channel on a third axis does not get through
    the subtraction of the mean, whatever the resize. *)
Lemma normalize_one_channel (data_mean a : ndarray) (h w : nat) :
  has_shape h w 1 (data a) = true ->
  (1 <= h)%nat -> (1 <= w)%nat ->
  has_shape 256 256 3 (data data_mean) = true ->
  normalize data_mean (Im3 a) = Raise ValueError.
Proof.
  intros Hs Hh Hw Hm.
  assert (Ha : three_channels (Im3 a) = a).
  { unfold three_channels.
    rewrite (shape3_of_has_shape h w 1 _ Hs Hh Hw). reflexivity. }
  destruct (resized_spec a h w 1 Hs Hh Hw)
    as (rows & cols & out & _ & Hr & Hc & Hre & Hso & _).
  unfold normalize. rewrite Ha, Hre. simpl bind.
  set (im' := {| dtype := float64; data := map3 (fun v => v * 255) out |}).
  assert (Hs' : has_shape (Z.to_nat rows) (Z.to_nat cols) 1 (data im') = true)
    by (apply has_shape_map3, Hso).
  destruct (flip_and_center_shape im' 1 rows cols Hs' Hr Hc) as [Hf _].
  unfold isub.
  rewrite (shape3_of_has_shape 256 256 1 _ Hf) by lia.
  rewrite (broadcast_to_one_channel 255 255 256 256 _ Hm). reflexivity.
Qed.

End NormalizeFacts.

(** A plain list of rows of one length. *)
Definition rect2 {X} (h w : nat) (px : list (list X)) : bool :=
  Nat.eqb (length px) h && forallb (fun row => Nat.eqb (length row) w) px.

Lemma three_channels_gray (d : np_dtype) (px : list (list Q)) (h w : nat) :
  rect2 h w px = true ->
  has_shape h w 3 (data (three_channels (Im2 d px))) = true /\
  forall r c, (r < h)%nat -> (c < w)%nat ->
    pixel (data (three_channels (Im2 d px))) r c =
    repeat (nth c (nth r px []) 0) 3.
Proof.
  unfold rect2. rewrite andb_true_iff, Nat.eqb_eq, forallb_forall.
  intros [Hh Hrows].
  assert (Hw : forall row, In row px -> length row = w)
    by (intros row Hin; apply Nat.eqb_eq, Hrows, Hin).
  split.
  - apply has_shape_spec. simpl. split; [rewrite !length_map; exact Hh|].
    rewrite !Forall_map. apply Forall_forall. intros row Hin. split.
    + rewrite !length_map. apply Hw, Hin.
    + rewrite !Forall_map. apply Forall_forall. intros v _. reflexivity.
  - intros r c Hr Hc. unfold pixel. simpl data.
    assert (Hin : In (nth r px []) px) by (apply nth_In; lia).
    set (g := fun p : list Q => p ++ p ++ p).
    set (s := fun v : Q => [v]).
    rewrite (nth_map_in (map g) (map (map s) px) r [])
      by (rewrite length_map; lia).
    rewrite (nth_map_in (map s) px r []) by lia.
    rewrite (nth_map_in g (map s (nth r px [])) c [])
      by (rewrite length_map, (Hw _ Hin); exact Hc).
    rewrite (nth_map_in s (nth r px []) c 0)
      by (rewrite (Hw _ Hin); exact Hc).
    reflexivity.
Qed.

Lemma three_channels_rgba (a : ndarray) (h w : nat) :
  has_shape h w 4 (data a) = true -> (1 <= h)%nat -> (1 <= w)%nat ->
  has_shape h w 3 (data (three_channels (Im3 a))) = true /\
  forall r c, (r < h)%nat -> (c < w)%nat ->
    pixel (data (three_channels (Im3 a))) r c = firstn 3 (pixel (data a) r c).
Proof.
  intros Hs Hh Hw. unfold three_channels.
  rewrite (shape3_of_has_shape h w 4 _ Hs Hh Hw). simpl snd. simpl Nat.eqb.
  cbv iota. simpl data.
  apply has_shape_spec in Hs. destruct Hs as [Hlen Hrows].
  rewrite Forall_forall in Hrows.
  assert (Hcut : forall row px, In row (data a) -> In px row ->
                 slice px None (Some 3%Z) = firstn 3 px).
  { intros row px Hrow Hpx. destruct (Hrows _ Hrow) as [_ Hp].
    rewrite Forall_forall in Hp.
    rewrite slice_head by (rewrite (Hp _ Hpx); lia).
    reflexivity. }
  split.
  - apply has_shape_spec. split; [rewrite length_map; exact Hlen|].
    rewrite Forall_map. apply Forall_forall. intros row Hrow.
    destruct (Hrows _ Hrow) as [Hwr Hp]. split.
    + rewrite length_map. exact Hwr.
    + rewrite Forall_map. apply Forall_forall. intros px Hpx.
      rewrite (Hcut row px Hrow Hpx), length_firstn.
      rewrite Forall_forall in Hp. rewrite (Hp _ Hpx). reflexivity.
  - intros r c Hr Hc. unfold pixel.
    assert (Hin : In (nth r (data a) []) (data a)) by (apply nth_In; lia).
    destruct (Hrows _ Hin) as [Hwr _].
    rewrite (nth_map_in (map (fun p => slice p None (Some 3%Z)))
                        (data a) r []) by lia.
    rewrite (nth_map_in (fun p => slice p None (Some 3%Z))
                        (nth r (data a) []) c [])
      by (rewrite Hwr; exact Hc).
    apply (Hcut (nth r (data a) [])); [exact Hin|].
    apply nth_In. rewrite Hwr. exact Hc.
Qed.

Lemma three_channels_rgb (a : ndarray) (h w : nat) :
  has_shape h w 3 (data a) = true -> (1 <= h)%nat -> (1 <= w)%nat ->
  three_channels (Im3 a) = a.
Proof.
  intros Hs Hh Hw. unfold three_channels.
  rewrite (shape3_of_has_shape h w 3 _ Hs Hh Hw). reflexivity.
Qed.

(** ** The claims about the normalisation *)

(** A mean image and four small uint8 images: two axes, three channels,
    four channels, one channel. *)
Definition sample_mean : ndarray :=
  {| dtype := float32; data := repeat (repeat [104; 117; 123] 256) 256 |}.

Definition gray_image : image :=
  Im2 uint8 [[10; 20; 30]; [40; 50; 60]].

Definition rgb_image : image :=
  Im3 {| dtype := uint8; data := [[[1; 2; 3]; [4; 5; 6]]] |}.

Definition rgba_image : image :=
  Im3 {| dtype := uint8;
         data := [[[1; 2; 3; 255]]; [[4; 5; 6; 255]]; [[7; 8; 9; 128]]] |}.


Lemma sample_mean_shape : has_shape 256 256 3 (data sample_mean) = true.
Proof. vm_compute. reflexivity. Qed.




(** C5: for every image of height H and width W (at least 1 each) the
    resize step gives the shorter of the two exactly 256 rows or columns
    and the other one round(dim * 256 / other_dim), the integer nearest
    to the quotient (the floor of the quotient plus one half); the image
    it leaves is what [transform.resize] returned for that shape with
    every value multiplied by 255; so the values of a uint8 image, which
    the resize returns as fractions in [0, 1], are back in the range
    0..255. *)
Theorem resize_step
  {skimage : Skimage} (im : ndarray) (h w c : nat) :
  has_shape h w c (data im) = true ->
  (1 <= h)%nat -> (1 <= w)%nat ->
  let height := Z.of_nat h in
  let width := Z.of_nat w in
  exists rows cols raw out,
    newshape height width = OK (rows, cols) /\
    resize im (rows, cols) = OK raw /\
    resized im = OK out /\
    dtype out = dtype raw /\
    data out = map3 (fun v => v * 255) (data raw) /\
    (forall r k, pixel (data out) r k =
                 map (fun v => v * 255) (pixel (data raw) r k)) /\
    has_shape (Z.to_nat rows) (Z.to_nat cols) c (data out) = true /\
    ((height < width)%Z ->
       rows = 256%Z /\
       cols = Qfloor (scaled width height + (1 # 2)) /\
       Qabs (inject_Z cols - scaled width height) <= 1 # 2) /\
    ((width <= height)%Z ->
       cols = 256%Z /\
       rows = Qfloor (scaled height width + (1 # 2)) /\
       Qabs (inject_Z rows - scaled height width) <= 1 # 2) /\
    (dtype im = uint8 -> within 0 255 (data im) = true ->
     within 0 1 (data raw) = true /\
     within 0 255 (data out) = true).
Proof.
  intros Hs Hh Hw height width.
  destruct (newshape_at_least_256 height width)
    as (rows & cols & Hn & Hr & Hc); [unfold height; lia|unfold width; lia|].
  destruct im as [d a]. cbn [data dtype] in *.
  destruct (resize_spec d a h w c rows cols Hs Hh Hw)
    as (out & Hraw & Hso & Hin); [lia|lia|].
  assert (Hre : resized {| dtype := d; data := a |}
                = OK {| dtype := float64;
                        data := map3 (fun v => v * 255) out |}).
  { unfold resized. cbn [data].
    rewrite (shape3_of_has_shape h w c a Hs Hh Hw). cbn [fst snd].
    fold height width. rewrite Hn. cbn [bind OK]. rewrite Hraw.
    reflexivity. }
  exists rows, cols, {| dtype := float64; data := out |},
         {| dtype := float64; data := map3 (fun v => v * 255) out |}.
  split; [exact Hn|]. split; [exact Hraw|]. split; [exact Hre|].
  split; [reflexivity|]. split; [reflexivity|].
  split; [intros r k; apply pixel_map3|].
  split; [apply has_shape_map3, Hso|].
  rewrite newshape_cases in Hn by (unfold height, width; lia).
  split; [|split].
  - intros Hlt. destruct (Z.ltb_spec height width); [|lia].
    injection Hn as <- <-.
    destruct (round_scaled width height) as (Hf & Hnear & _);
      [unfold height; lia|lia|].
    split; [reflexivity|]. split; [exact Hf|exact Hnear].
  - intros Hge. destruct (Z.ltb_spec height width); [lia|].
    injection Hn as <- <-.
    destruct (round_scaled height width) as (Hf & Hnear & _);
      [unfold width; lia|lia|].
    split; [reflexivity|]. split; [exact Hf|exact Hnear].
  - intros Hd Hw255. cbn [data].
    split; [apply Hin; assumption|].
    apply within_times_255, Hin; assumption.
Qed.

Lemma resize_step_witness :
  has_shape 3 1 4 [[[1; 2; 3; 255]]; [[4; 5; 6; 255]]; [[7; 8; 9; 128]]]
    = true /\
  (1 <= 3)%nat /\ (1 <= 1)%nat /\
  exists rows cols raw out,
    newshape 3 1 = OK (rows, cols) /\
    resize {| dtype := uint8;
              data := [[[1; 2; 3; 255]]; [[4; 5; 6; 255]];
                       [[7; 8; 9; 128]]] |} (rows, cols) = OK raw /\
    resized {| dtype := uint8;
               data := [[[1; 2; 3; 255]]; [[4; 5; 6; 255]];
                        [[7; 8; 9; 128]]] |} = OK out /\
    dtype out = dtype raw /\
    data out = map3 (fun v => v * 255) (data raw) /\
    (forall r k, pixel (data out) r k =
                 map (fun v => v * 255) (pixel (data raw) r k)) /\
    has_shape (Z.to_nat rows) (Z.to_nat cols) 4 (data out) = true /\
    ((3 < 1)%Z ->
       rows = 256%Z /\
       cols = Qfloor (scaled 1 3 + (1 # 2)) /\
       Qabs (inject_Z cols - scaled 1 3) <= 1 # 2) /\
    ((1 <= 3)%Z ->
       cols = 256%Z /\
       rows = Qfloor (scaled 3 1 + (1 # 2)) /\
       Qabs (inject_Z rows - scaled 3 1) <= 1 # 2) /\
    (uint8 = uint8 ->
     within 0 255 [[[1; 2; 3; 255]]; [[4; 5; 6; 255]]; [[7; 8; 9; 128]]]
       = true ->
     within 0 1 (data raw) = true /\
     within 0 255 (data out) = true).
Proof.
  split; [reflexivity|]. split; [lia|]. split; [lia|].
  apply (resize_step
           {| dtype := uint8;
              data := [[[1; 2; 3; 255]]; [[4; 5; 6; 255]];
                       [[7; 8; 9; 128]]] |} 3 1 4);
    [reflexivity|lia|lia].
Defined.

(** The rule on two sizes: 300 x 200 becomes 384 x 256, and 512 x 513
    (a quotient that ends in one half) becomes 256 x 257. *)
Example newshape_300_200 : newshape 300 200 = OK (384%Z, 256%Z).
Proof. reflexivity. Qed.

Example newshape_512_513 : newshape 512 513 = OK (256%Z, 257%Z).
Proof. reflexivity. Qed.

(** ** Facts about the mean *)

Section MeanFacts.

Context {F : Type} {arith : Arith F}.

Lemma add_rows_length (acc row : list F) :
  length row = length acc -> length (add_rows acc row) = length acc.
Proof.
  intros H. unfold add_rows. rewrite length_map, length_combine. lia.
Qed.

Lemma add_rows_nth (acc row : list F) (j : nat) (d : F) :
  length row = length acc -> (j < length acc)%nat ->
  nth j (add_rows acc row) d = add (nth j acc d) (nth j row d).
Proof.
  intros H Hj. unfold add_rows.
  rewrite (nth_map_in _ _ _ (d, d)) by (rewrite length_combine; lia).
  rewrite combine_nth by (symmetry; exact H). reflexivity.
Qed.

Lemma fold_add_rows (rest : list (list F)) (acc : list F) :
  Forall (fun row => length row = length acc) rest ->
  length (fold_left add_rows rest acc) = length acc /\
  forall j d, (j < length acc)%nat ->
    nth j (fold_left add_rows rest acc) d =
    fold_left add (map (fun row => nth j row d) rest) (nth j acc d).
Proof.
  revert acc. induction rest as [|row rest IH]; intros acc Hall; simpl.
  - split; reflexivity.
  - inversion Hall as [|? ? Hrow Hrest]; subst.
    pose proof (add_rows_length acc row Hrow) as Hlen.
    destruct (IH (add_rows acc row)) as [IHlen IHnth].
    { eapply Forall_impl; [|exact Hrest]. intros r Hr. simpl in Hr. lia. }
    split; [lia|].
    intros j d Hj. rewrite IHnth by lia.
    rewrite add_rows_nth by assumption. reflexivity.
Qed.

(** Entry j of the mean: the entries j added in batch order, divided by
    the number of rows. *)
Lemma mean0_nth (first : list F) (rest : list (list F)) (j : nat) (d : F) :
  Forall (fun row => length row = length first) rest ->
  (j < length first)%nat ->
  length (mean0 (first :: rest)) = length first /\
  nth j (mean0 (first :: rest)) (div_count d (S (length rest))) =
    div_count (fold_left add (map (fun row => nth j row d) rest)
                         (nth j first d))
              (S (length rest)).
Proof.
  intros Hall Hj. destruct (fold_add_rows rest first Hall) as [Hlen Hnth].
  unfold mean0, sum0. split; [rewrite length_map; exact Hlen|].
  simpl length.
  rewrite (map_nth (fun s => div_count s (S (length rest)))).
  rewrite Hnth by exact Hj. reflexivity.
Qed.

End MeanFacts.

(** In exact arithmetic the sums of n more copies of [v] on top of k
    copies are k + n copies. *)
Lemma fold_add_rows_repeat (n : nat) (v acc : list Q) (k : Q) :
  Forall2 (fun a x => a == x * k) acc v ->
  Forall2 (fun a x => a == x * (k + inject_Z (Z.of_nat n)))
          (fold_left add_rows (repeat v n) acc) v.
Proof.
  revert acc k. induction n as [|n IH]; intros acc k H.
  - simpl. eapply Forall2_impl; [|exact H].
    intros a x Ha. simpl in Ha. rewrite Ha. unfold inject_Z. simpl. ring.
  - simpl repeat. simpl fold_left.
    assert (Hstep : Forall2 (fun a x => a == x * (k + 1)) (add_rows acc v) v).
    { clear IH. induction H as [|a x acc v Ha _ IHf]; [constructor|].
      unfold add_rows. simpl. constructor; [|exact IHf].
      simpl. rewrite Ha. ring. }
    specialize (IH _ _ Hstep).
    eapply Forall2_impl; [|exact IH].
    intros a x Ha. simpl in Ha. rewrite Ha.
    rewrite Nat2Z.inj_succ, <- Z.add_1_l, inject_Z_plus.
    change (inject_Z 1) with 1. ring.
Qed.

Lemma Forall2_map_left {X Y Z} (R : X -> Y -> Prop) (R' : Z -> Y -> Prop)
      (g : X -> Z) (l : list X) (v : list Y) :
  (forall a x, R a x -> R' (g a) x) ->
  Forall2 R l v -> Forall2 R' (map g l) v.
Proof.
  intros Hg H. induction H as [|a x l v Ha _ IH]; simpl; constructor; auto.
Qed.

Lemma mean0_repeat_exact (v : list Q) (n : nat) :
  (1 <= n)%nat -> Forall2 Qeq (mean0 (repeat v n)) v.
Proof.
  intros Hn. destruct n as [|n]; [lia|].
  unfold mean0. rewrite repeat_length. simpl repeat. simpl sum0.
  assert (H1 : Forall2 (fun a x => a == x * 1) v v).
  { clear. induction v as [|x v IH]; constructor; [ring|exact IH]. }
  pose proof (fold_add_rows_repeat n v v 1 H1) as H.
  eapply Forall2_map_left; [|exact H].
  intros a x Ha. cbv beta in Ha. unfold div_count, rational. rewrite Ha.
  rewrite Nat2Z.inj_succ, <- Z.add_1_l, inject_Z_plus.
  change (inject_Z 1) with 1.
  assert (Hpos : 0 <= inject_Z (Z.of_nat n))
    by (change 0 with (inject_Z 0); rewrite <- Zle_Qle; lia).
  revert Hpos. generalize (inject_Z (Z.of_nat n)). intros q Hq.
  field. lra.
Qed.

(** ** The claim about the aggregation *)

(** C8, as the code has it: classify returns the mean down the batch axis
    of the N per-crop score vectors; entry j of it is the sum of the N
    entries j, added in batch order, divided by N; and in exact
    arithmetic the mean of N >= 1 identical score vectors is that vector
    again, entry by entry. *)
Theorem aggregate_is_mean :
  (forall (skimage : Skimage) (F B : Type) (arith : Arith F)
          (data_mean : ndarray) (astype_float32 : Q -> B)
          (np_empty : arr3 B) (predict : arr4 B -> result (list (list F)))
          (im : image) (center_only : bool)
          (im' : ndarray) (images : arr4 B) (predictions : list (list F)),
     normalize data_mean im = OK im' ->
     oversample astype_float32 np_empty (data im') center_only = OK images ->
     predict images = OK predictions ->
     classify data_mean astype_float32 np_empty predict im center_only
       = OK (mean0 predictions)) /\
  (forall (F : Type) (arith : Arith F) (first : list F)
          (rest : list (list F)) (j : nat) (d : F),
     Forall (fun row => length row = length first) rest ->
     (j < length first)%nat ->
     length (mean0 (first :: rest)) = length first /\
     nth j (mean0 (first :: rest)) (div_count d (S (length rest))) =
       div_count (fold_left add (map (fun row => nth j row d) rest)
                            (nth j first d))
                 (S (length rest))) /\
  (forall (v : list Q) (n : nat),
     (1 <= n)%nat -> Forall2 Qeq (mean0 (repeat v n)) v).
Proof.
  split; [|split].
  - intros skimage F B arith data_mean astype_float32 np_empty predict
           im center_only im' images predictions Hn Ho Hp.
    unfold classify, classify_direct. rewrite Hn. simpl bind.
    rewrite Ho. simpl bind. rewrite Hp. reflexivity.
  - intros F arith first rest j d. apply mean0_nth.
  - apply mean0_repeat_exact.
Qed.

Lemma aggregate_is_mean_witness :
  (1 <= 10)%nat /\
  Forall2 Qeq (mean0 (repeat sample_scores 10)) sample_scores.
Proof.
  split; [lia|].
  apply (proj2 (proj2 aggregate_is_mean) sample_scores 10%nat). lia.
Defined.

(** C8 as the spec words it fails: in the float32 arithmetic of the
    scores the mean of ten copies of a vector that holds 0.1 is not that
    vector. Ten times 0.1 add up to 1.0000001, and a tenth of that is
    0.10000001, the float after 0.1; in float64 the sum is
    0.9999999999999999 and the mean the float before 0.1. *)
Lemma mean_of_ten_copies_is_rounded :
  valid_binary 24 128 tenth32 = true /\
  @mean0 _ binary32 (repeat probs32 10) =
    repeat (S754_finite false 13421774 (-27)) 10
    ++ repeat (S754_zero false) 990 /\
  SFcompare tenth32 (S754_finite false 13421774 (-27)) = Some Lt /\
  valid_binary 53 1024 tenth64 = true /\
  @mean0 _ binary64 (repeat probs64 10) =
    repeat (S754_finite false 7205759403792793 (-56)) 10
    ++ repeat (S754_zero false) 990 /\
  SFcompare (S754_finite false 7205759403792793 (-56)) tenth64 = Some Lt.
Proof. repeat split; vm_compute; reflexivity. Qed.

(** * Further properties of the code *)

Local Open Scope Z_scope.

(** ** top_k_prediction on vectors of any length *)

Lemma StronglySorted_firstn {X} (R : X -> X -> Prop) (n : nat) (l : list X) :
  StronglySorted R l -> StronglySorted R (firstn n l).
Proof.
  intros H. revert n. induction H as [|a l Hs IH Ha]; intros [|n]; simpl;
    try constructor.
  - apply IH.
  - apply Forall_firstn_keeps, Ha.
Qed.

Lemma mapM_getitem_fails {X} (l : list X) (idx : list nat) :
  Exists (fun i => (length l <= i)%nat) idx ->
  mapM (fun i => getitem l i) idx = Raise IndexError.
Proof.
  induction idx as [|i idx IH]; intros H; [inversion H|].
  simpl. unfold getitem at 1.
  destruct (nth_error l i) as [x|] eqn:E; [|reflexivity].
  simpl. rewrite IH; [reflexivity|].
  inversion H as [? ? Hi|? ? Ht]; subst; [|exact Ht].
  assert (nth_error l i <> None) by congruence.
  apply nth_error_Some in H0. lia.
Qed.

Section TopKMore.

Context {S : Type} {leb : S -> S -> bool} {numpy : Argsort leb}.

(** However long the vector: for k >= 0 the call returns min(k, n)
    distinct indices of the vector, in descending order of score, and
    their names in the same order. *)
Theorem top_k_descending
  (label_names : list string) (scores : list S) (k : Z) :
  (length scores <= length label_names)%nat ->
  0 <= k ->
  exists indices names,
    top_k_prediction label_names scores k = OK (indices, names) /\
    length indices = Nat.min (Z.to_nat k) (length scores) /\
    NoDup indices /\
    Forall (fun i => (i < length scores)%nat) indices /\
    StronglySorted (fun i j => le_at leb scores j i = true) indices /\
    names = map (fun i => nth i label_names EmptyString) indices.
Proof.
  intros Hl Hk.
  exists (top_indices scores k),
         (map (fun i => nth i label_names EmptyString) (top_indices scores k)).
  split; [apply top_k_returns, Hl|].
  split.
  { rewrite top_indices_length. unfold top_count.
    destruct (Z.ltb_spec k 0); lia. }
  split; [apply top_indices_NoDup|].
  split.
  { apply Forall_forall. intros i Hi. apply (top_indices_incl _ _ _ Hi). }
  split; [|reflexivity].
  apply StronglySorted_firstn.
  apply (StronglySorted_rev _ _ (argsort_sorted scores)).
Qed.

(** Asking for fewer gives a prefix of asking for more: the top k are the
    first of the top k', indices and names alike. *)
Theorem top_k_prefix
  (label_names : list string) (scores : list S) (k k' : Z) :
  (length scores <= length label_names)%nat ->
  0 <= k <= k' ->
  exists indices names indices' names',
    top_k_prediction label_names scores k = OK (indices, names) /\
    top_k_prediction label_names scores k' = OK (indices', names') /\
    indices = firstn (length indices) indices' /\
    names = firstn (length names) names'.
Proof.
  intros Hl Hk.
  exists (top_indices scores k),
         (map (fun i => nth i label_names EmptyString) (top_indices scores k)),
         (top_indices scores k'),
         (map (fun i => nth i label_names EmptyString)
              (top_indices scores k')).
  split; [apply top_k_returns, Hl|].
  split; [apply top_k_returns, Hl|].
  assert (Hpre : top_indices scores k =
                 firstn (length (top_indices scores k))
                        (top_indices scores k')).
  { rewrite top_indices_length. unfold top_indices.
    rewrite firstn_firstn. f_equal. unfold top_count.
    destruct (Z.ltb_spec k 0); [lia|].
    destruct (Z.ltb_spec k' 0); lia. }
  split; [exact Hpre|].
  rewrite length_map, firstn_map, <- Hpre. reflexivity.
Qed.

(** With at least one score and k >= 1 the first index returned is a
    best one: every other index scores at most as much. *)
Theorem top_k_first_is_best
  (label_names : list string) (scores : list S) (k : Z) :
  (length scores <= length label_names)%nat ->
  (1 <= length scores)%nat ->
  1 <= k ->
  exists best rest names,
    top_k_prediction label_names scores k = OK (best :: rest, names) /\
    (best < length scores)%nat /\
    forall j, (j < length scores)%nat -> j <> best ->
              le_at leb scores j best = true.
Proof.
  intros Hl Hn Hk.
  pose proof (StronglySorted_rev _ _ (argsort_sorted scores)) as Hs.
  pose proof (argsort_length scores) as Hlen.
  assert (Hin : forall j, (j < length scores)%nat ->
                          In j (rev (argsort scores)))
    by (intros j Hj; apply in_rev; rewrite rev_involutive;
        apply argsort_in_iff, Hj).
  assert (Hinv : forall j, In j (rev (argsort scores)) ->
                           (j < length scores)%nat)
    by (intros j Hj; apply argsort_in_iff, in_rev, Hj).
  rewrite top_k_returns by exact Hl. unfold top_indices.
  destruct (rev (argsort scores)) as [|best tl] eqn:E.
  { apply (f_equal (@length nat)) in E. rewrite length_rev in E.
    simpl in E. lia. }
  assert (Hc : exists m, top_count (length scores) k = Datatypes.S m).
  { unfold top_count. destruct (Z.ltb_spec k 0); [lia|].
    exists (Z.to_nat (Z.min k (Z.of_nat (length scores))) - 1)%nat. lia. }
  destruct Hc as [m Hm]. rewrite Hm. simpl firstn.
  eexists best, (firstn m tl), _. split; [reflexivity|].
  split; [apply Hinv; left; reflexivity|].
  intros j Hj Hne. inversion Hs as [|? ? _ Hb]; subst.
  rewrite Forall_forall in Hb. apply Hb.
  destruct (Hin j Hj) as [Hjb|Hjt]; [congruence|exact Hjt].
Qed.

(** With fewer names than scores, asking for every index raises
    IndexError: the comprehension looks up a name that is not there. *)
Theorem top_k_short_labels
  (label_names : list string) (scores : list S) (k : Z) :
  (length label_names < length scores)%nat ->
  Z.of_nat (length scores) <= k ->
  top_k_prediction label_names scores k = Raise IndexError.
Proof.
  intros Hl Hk. unfold top_k_prediction.
  rewrite slice_rev_top, argsort_length. fold (top_indices scores k).
  rewrite top_indices_all by exact Hk.
  rewrite mapM_getitem_fails; [reflexivity|].
  apply Exists_exists. exists (length scores - 1)%nat. split; [|lia].
  apply in_rev. rewrite rev_involutive. apply argsort_in_iff. lia.
Qed.

End TopKMore.

Lemma top_k_descending_witness :
  (length sample_scores <= length sample_labels)%nat /\ 0 <= 3 /\
  exists indices names,
    top_k_prediction sample_labels sample_scores 3 = OK (indices, names) /\
    length indices = Nat.min (Z.to_nat 3) (length sample_scores) /\
    NoDup indices /\
    Forall (fun i => (i < length sample_scores)%nat) indices /\
    StronglySorted (fun i j => le_at Qle_bool sample_scores j i = true)
                   indices /\
    names = map (fun i => nth i sample_labels EmptyString) indices.
Proof.
  split; [apply Nat.leb_le; reflexivity|]. split; [lia|].
  apply (top_k_descending sample_labels sample_scores 3);
    [apply Nat.leb_le; reflexivity|lia].
Defined.

Lemma top_k_prefix_witness :
  (length sample_scores <= length sample_labels)%nat /\ 0 <= 2 <= 5 /\
  exists indices names indices' names',
    top_k_prediction sample_labels sample_scores 2 = OK (indices, names) /\
    top_k_prediction sample_labels sample_scores 5 = OK (indices', names') /\
    indices = firstn (length indices) indices' /\
    names = firstn (length names) names'.
Proof.
  split; [apply Nat.leb_le; reflexivity|]. split; [lia|].
  apply (top_k_prefix sample_labels sample_scores 2 5);
    [apply Nat.leb_le; reflexivity|lia].
Defined.

Lemma top_k_first_is_best_witness :
  (length sample_scores <= length sample_labels)%nat /\
  (1 <= length sample_scores)%nat /\ 1 <= 1 /\
  exists best rest names,
    top_k_prediction sample_labels sample_scores 1
      = OK (best :: rest, names) /\
    (best < length sample_scores)%nat /\
    forall j, (j < length sample_scores)%nat -> j <> best ->
              le_at Qle_bool sample_scores j best = true.
Proof.
  split; [apply Nat.leb_le; reflexivity|].
  split; [apply Nat.leb_le; reflexivity|]. split; [lia|].
  apply (top_k_first_is_best sample_labels sample_scores 1);
    [apply Nat.leb_le; reflexivity|apply Nat.leb_le; reflexivity|lia].
Defined.

Lemma top_k_short_labels_witness :
  (length (firstn 999 sample_labels) < length sample_scores)%nat /\
  Z.of_nat (length sample_scores) <= 1000 /\
  top_k_prediction (firstn 999 sample_labels) sample_scores 1000
    = Raise IndexError.
Proof.
  split; [apply Nat.ltb_lt; reflexivity|].
  split; [vm_compute; discriminate|].
  apply (top_k_short_labels (firstn 999 sample_labels) sample_scores 1000);
    [apply Nat.ltb_lt; reflexivity|vm_compute; discriminate].
Defined.

(** ** __init__ beyond the try block *)

Section LoaderMore.

Context {Obj Net Mean : Type}.
Variable pickle_load : list Byte.byte -> result Obj.
Variable subscript : Obj -> string -> result Obj.
Variable translate_cuda_network : Obj -> Z * Z * Z -> result Net.
Variable img_cudaconv_to_decaf : Obj -> Z -> Z -> result Mean.
Variable fs : string -> option (list Byte.byte).
Variable _JEFFNET_FILE : string.
Variable _META_FILE : string.

(** With both files read and every collaborator returning, the
    constructor gives an object whose three attributes are the translated
    network, [meta['label_names']] and the converted
    [meta['data_mean']]. *)
Theorem init_sets_all_attributes
  (net_file meta_file : option string)
  (f g : list Byte.byte) (cuda meta names data_mean : Obj)
  (net : Net) (mean : Mean) :
  fs (or_default net_file _JEFFNET_FILE) = Some f ->
  pickle_load f = OK cuda ->
  fs (or_default meta_file _META_FILE) = Some g ->
  pickle_load g = OK meta ->
  translate_cuda_network cuda (227, 227, 3) = OK net ->
  subscript meta "label_names" = OK names ->
  subscript meta "data_mean" = OK data_mean ->
  img_cudaconv_to_decaf data_mean 256 3 = OK mean ->
  new pickle_load subscript translate_cuda_network img_cudaconv_to_decaf
      fs _JEFFNET_FILE _META_FILE net_file meta_file
  = OK {| _net := Some net;
          label_names := Some names;
          _data_mean := Some mean |}.
Proof.
  intros Hf Hc Hg Hm Ht Hn Hd Hi.
  unfold new, __init__, load_files, open.
  rewrite Hf. simpl bind. rewrite Hc. simpl bind.
  rewrite Hg. simpl bind. rewrite Hm. simpl.
  change (INPUT_DIM, INPUT_DIM, 3) with (227, 227, 3).
  unfold OK in *.
  rewrite Ht; cbv beta iota. rewrite Hn; cbv beta iota.
  rewrite Hd; cbv beta iota. rewrite Hi. reflexivity.
Qed.

(** After the try block nothing is caught: the exception of a
    collaborator leaves the constructor as it is, an IOError too, and
    the object keeps the attributes set before it. *)
Theorem init_late_failure
  (net_file meta_file : option string) (cuda meta : Obj) (e : exn) :
  load_files pickle_load fs _JEFFNET_FILE _META_FILE net_file meta_file
    = OK (cuda, meta) ->
  let run := __init__ pickle_load subscript translate_cuda_network
                      img_cudaconv_to_decaf fs _JEFFNET_FILE _META_FILE
                      blank net_file meta_file in
  (translate_cuda_network cuda (227, 227, 3) = Raise e ->
   run = (blank, Raise e)) /\
  (forall net,
     translate_cuda_network cuda (227, 227, 3) = OK net ->
     subscript meta "label_names" = Raise e ->
     run = ({| _net := Some net; label_names := None; _data_mean := None |},
            Raise e)) /\
  (forall net names,
     translate_cuda_network cuda (227, 227, 3) = OK net ->
     subscript meta "label_names" = OK names ->
     subscript meta "data_mean" = Raise e \/
     (exists data_mean, subscript meta "data_mean" = OK data_mean /\
                        img_cudaconv_to_decaf data_mean 256 3 = Raise e) ->
     run = ({| _net := Some net; label_names := Some names;
               _data_mean := None |},
            Raise e)).
Proof.
  intros Hload run. unfold run, __init__. rewrite Hload.
  change (INPUT_DIM, INPUT_DIM, 3) with (227, 227, 3).
  unfold OK, Raise in *.
  split; [|split].
  - intros Ht. rewrite Ht. reflexivity.
  - intros net Ht Hn. rewrite Ht; cbv beta iota. rewrite Hn. reflexivity.
  - intros net names Ht Hn [Hd|(data_mean & Hd & Hi)].
    + rewrite Ht; cbv beta iota. rewrite Hn; cbv beta iota.
      rewrite Hd. reflexivity.
    + rewrite Ht; cbv beta iota. rewrite Hn; cbv beta iota.
      rewrite Hd; cbv beta iota. rewrite Hi. reflexivity.
Qed.

(** Inside the try block every IOError is answered alike: one that
    [pickle.load] raises while reading an opened file becomes the
    RuntimeError too. *)
Theorem init_ioerror_while_unpickling
  (net_file meta_file : option string) (f : list Byte.byte) :
  fs (or_default net_file _JEFFNET_FILE) = Some f ->
  pickle_load f = Raise IOError \/
  (exists cuda g, pickle_load f = OK cuda /\
                  fs (or_default meta_file _META_FILE) = Some g /\
                  pickle_load g = Raise IOError) ->
  new pickle_load subscript translate_cuda_network img_cudaconv_to_decaf
      fs _JEFFNET_FILE _META_FILE net_file meta_file
  = Raise (RuntimeError "Cannot find JeffNet files.")
          (A := JeffNet Net Obj Mean).
Proof.
  intros Hf H. unfold new, __init__, load_files, open. rewrite Hf. simpl bind.
  destruct H as [Hc|(cuda & g & Hc & Hg & Hm)].
  - rewrite Hc. reflexivity.
  - rewrite Hc. simpl bind. rewrite Hg. simpl bind. rewrite Hm. reflexivity.
Qed.

End LoaderMore.

(** A meta object without label names, and an unpickler whose read
    fails. *)
Definition no_labels_subscript (obj : list Byte.byte) (key : string)
  : result (list Byte.byte) :=
  if String.eqb key "data_mean" then OK obj else Raise KeyError.

Definition failing_read (bytes : list Byte.byte) : result (list Byte.byte) :=
  Raise IOError.

Lemma init_sets_all_attributes_witness :
  toy_fs "net"%string = Some [Byte.x80; Byte.x02; Byte.x2e] /\
  toy_new None None
  = OK {| _net := Some tt;
          label_names := Some [Byte.x02; Byte.x2e];
          _data_mean := Some tt |}.
Proof.
  split; [reflexivity|].
  apply (init_sets_all_attributes
           toy_pickle_load toy_subscript toy_translate toy_mean toy_fs
           "net"%string "meta"%string None None
           [Byte.x80; Byte.x02; Byte.x2e] [Byte.x80; Byte.x02; Byte.x2e]
           [Byte.x02; Byte.x2e] [Byte.x02; Byte.x2e]
           [Byte.x02; Byte.x2e] [Byte.x02; Byte.x2e] tt tt);
    reflexivity.
Defined.

Lemma init_late_failure_witness :
  load_files toy_pickle_load toy_fs "net"%string "meta"%string None None
    = OK ([Byte.x02; Byte.x2e], [Byte.x02; Byte.x2e]) /\
  __init__ toy_pickle_load no_labels_subscript toy_translate toy_mean toy_fs
           "net"%string "meta"%string blank None None
  = ({| _net := Some tt; label_names := None; _data_mean := None |},
     Raise KeyError).
Proof.
  split; [reflexivity|].
  apply (proj1 (proj2 (init_late_failure
           toy_pickle_load no_labels_subscript toy_translate toy_mean toy_fs
           "net"%string "meta"%string None None
           [Byte.x02; Byte.x2e] [Byte.x02; Byte.x2e] KeyError
           eq_refl)) tt); reflexivity.
Defined.

Lemma init_ioerror_while_unpickling_witness :
  toy_fs "net"%string = Some [Byte.x80; Byte.x02; Byte.x2e] /\
  new failing_read toy_subscript toy_translate toy_mean toy_fs
      "net"%string "meta"%string None None
  = Raise (RuntimeError "Cannot find JeffNet files.")
          (A := JeffNet unit (list Byte.byte) unit).
Proof.
  split; [reflexivity|].
  apply (init_ioerror_while_unpickling
           failing_read toy_subscript toy_translate toy_mean toy_fs
           "net"%string "meta"%string None None
           [Byte.x80; Byte.x02; Byte.x2e]);
    [reflexivity|left; reflexivity].
Defined.

(** ** The normalisation at its edges *)

Local Open Scope Q_scope.

Lemma broadcast_to_other_channels {X} (h w h' w' c : nat) (b : arr3 X) :
  has_shape (S h) (S w) 3 b = true -> c <> 3%nat ->
  broadcast_to h' w' c b = Raise ValueError.
Proof.
  rewrite has_shape_spec. intros [Hlen Hrows] Hc.
  destruct b as [|row rest]; [discriminate Hlen|].
  inversion Hrows as [|? ? [Hw Hpx] _]; subst.
  destruct row as [|px r]; [discriminate Hw|].
  inversion Hpx as [|? ? Hc3 _]; subst.
  destruct px as [|x [|y [|z [|t px]]]]; try discriminate Hc3.
  unfold broadcast_to. simpl mapM. unfold bcast at 1. simpl length.
  destruct (Nat.eqb_spec 3 c) as [E|_]; [congruence|]. reflexivity.
Qed.

Section NormalizeEdges.

Context {skimage : Skimage}.

(** An image without rows or without columns raises ZeroDivisionError
    where the new shape is computed, before any resize. *)
Theorem normalize_empty_image (data_mean : ndarray) (im : image) :
  length (data (three_channels im)) = 0%nat \/
  length (hd [] (data (three_channels im))) = 0%nat ->
  normalize data_mean im = Raise ZeroDivisionError.
Proof.
  intros H. unfold normalize, resized, shape3. simpl fst. simpl snd.
  assert (Hw : length (hd [] (data (three_channels im))) = 0%nat).
  { destruct H as [H|H]; [|exact H].
    destruct (data (three_channels im)); [reflexivity|discriminate H]. }
  rewrite Hw. unfold newshape.
  destruct (Z.ltb_spec (Z.of_nat (length (data (three_channels im))))
                       (Z.of_nat 0)) as [Hlt|_]; [lia|].
  reflexivity.
Qed.

(** An image of three axes whose channels are neither 3 nor 4 in number
    raises ValueError where the mean is subtracted. *)
Theorem normalize_wrong_channels
  (data_mean a : ndarray) (h w c : nat) :
  has_shape h w c (data a) = true ->
  (1 <= h)%nat -> (1 <= w)%nat ->
  c <> 3%nat -> c <> 4%nat ->
  has_shape 256 256 3 (data data_mean) = true ->
  normalize data_mean (Im3 a) = Raise ValueError.
Proof.
  intros Hs Hh Hw H3 H4 Hm.
  assert (Ha : three_channels (Im3 a) = a).
  { unfold three_channels.
    rewrite (shape3_of_has_shape h w c _ Hs Hh Hw). simpl snd.
    destruct (Nat.eqb_spec c 4); [contradiction|reflexivity]. }
  destruct (resized_spec a h w c Hs Hh Hw)
    as (rows & cols & out & _ & Hr & Hc & Hre & Hso & _).
  unfold normalize. rewrite Ha, Hre. simpl bind.
  set (im' := {| dtype := float64; data := map3 (fun v => v * 255) out |}).
  assert (Hs' : has_shape (Z.to_nat rows) (Z.to_nat cols) c (data im') = true)
    by (apply has_shape_map3, Hso).
  destruct (flip_and_center_shape im' c rows cols Hs' Hr Hc) as [Hf _].
  unfold isub.
  rewrite (shape3_of_has_shape 256 256 c _ Hf) by lia.
  rewrite (broadcast_to_other_channels 255 255 256 256 c _ Hm H3).
  reflexivity.
Qed.

End NormalizeEdges.

(** Rounding a quotient that is a whole number gives that number. *)
Lemma py_int_half_up_whole (q : Q) (n : Z) :
  (0 <= n)%Z -> q == inject_Z n -> py_int (q + (1 # 2)) = n.
Proof.
  intros Hn Hq.
  assert (H0 : 0 <= q).
  { rewrite Hq. change 0 with (inject_Z 0). rewrite <- Zle_Qle. exact Hn. }
  destruct (py_int_half_up q H0) as [Hf _]. rewrite Hf.
  pose proof (Qfloor_le (q + (1 # 2))) as Hle.
  pose proof (Qlt_floor (q + (1 # 2))) as Hlt.
  set (m := Qfloor (q + (1 # 2))) in *.
  rewrite Hq in Hle, Hlt.
  rewrite inject_Z_plus in Hlt. change (inject_Z 1) with 1 in Hlt.
  destruct (Z_lt_le_dec n m) as [Hnm|Hmn].
  - exfalso. assert (H : inject_Z (n + 1) <= inject_Z m)
      by (rewrite <- Zle_Qle; lia).
    rewrite inject_Z_plus in H. change (inject_Z 1) with 1 in H.
    revert Hle H. generalize (inject_Z n), (inject_Z m). intros; lra.
  - destruct (Z_lt_le_dec m n) as [Hlt'|Hge]; [|lia].
    exfalso. assert (H : inject_Z (m + 1) <= inject_Z n)
      by (rewrite <- Zle_Qle; lia).
    rewrite inject_Z_plus in H. change (inject_Z 1) with 1 in H.
    revert Hlt H. generalize (inject_Z n), (inject_Z m). intros; lra.
Qed.

Lemma scaled_by_256 (dim : Z) : scaled dim 256 == inject_Z dim.
Proof. unfold scaled. change (inject_Z 256) with 256. field. Qed.

Lemma scaled_square (dim : Z) : (1 <= dim)%Z -> scaled dim dim == inject_Z 256.
Proof.
  intros H. unfold scaled. change (inject_Z 256) with 256.
  assert (Hd : 0 < inject_Z dim)
    by (change 0 with (inject_Z 0); rewrite <- Zlt_Qlt; lia).
  revert Hd. generalize (inject_Z dim). intros d Hd. field. lra.
Qed.

(** The target shape of the transposed image is the transposed target
    shape. *)
Theorem newshape_transpose (height width : Z) :
  (1 <= height)%Z -> (1 <= width)%Z ->
  exists rows cols,
    newshape height width = OK (rows, cols) /\
    newshape width height = OK (cols, rows).
Proof.
  intros Hh Hw. rewrite !newshape_cases by assumption.
  destruct (Z.ltb_spec height width) as [Hlt|Hge];
    destruct (Z.ltb_spec width height) as [Hlt'|Hge'].
  - lia.
  - eexists _, _. split; reflexivity.
  - eexists _, _. split; reflexivity.
  - assert (height = width) by lia. subst width.
    rewrite (py_int_half_up_whole (scaled height height) 256);
      [|lia|apply scaled_square, Hh].
    eexists _, _. split; reflexivity.
Qed.

(** An image that has its target shape already keeps it: the new shape
    of the new shape is the new shape. *)
Theorem newshape_idempotent (height width rows cols : Z) :
  (1 <= height)%Z -> (1 <= width)%Z ->
  newshape height width = OK (rows, cols) ->
  newshape rows cols = OK (rows, cols).
Proof.
  intros Hh Hw Hn.
  destruct (newshape_at_least_256 height width Hh Hw)
    as (r & c & Hn' & Hr & Hc).
  rewrite Hn in Hn'. injection Hn' as <- <-.
  assert (Hside : rows = 256%Z \/ cols = 256%Z).
  { rewrite newshape_cases in Hn by assumption.
    destruct (height <? width)%Z; injection Hn as <- <-; auto. }
  rewrite newshape_cases by lia.
  destruct (Z.ltb_spec rows cols) as [Hlt|Hge].
  - destruct Hside as [-> | ->]; [|lia].
    rewrite (py_int_half_up_whole (scaled cols 256) cols);
      [reflexivity|lia|apply scaled_by_256].
  - destruct Hside as [-> | ->].
    + assert (cols = 256%Z) by lia. subst cols.
      rewrite (py_int_half_up_whole (scaled 256 256) 256);
        [reflexivity|lia|apply scaled_square; lia].
    + rewrite (py_int_half_up_whole (scaled rows 256) rows);
        [reflexivity|lia|apply scaled_by_256].
Qed.

Lemma normalize_empty_image_witness :
  (length (data (three_channels (Im2 uint8 []))) = 0%nat \/
   length (hd [] (data (three_channels (Im2 uint8 [])))) = 0%nat) /\
  normalize sample_mean (Im2 uint8 []) = Raise ZeroDivisionError /\
  normalize sample_mean (Im3 {| dtype := uint8; data := [[]; []] |})
    = Raise ZeroDivisionError.
Proof.
  split; [left; reflexivity|]. split.
  - apply (normalize_empty_image sample_mean (Im2 uint8 [])).
    left. reflexivity.
  - apply (normalize_empty_image sample_mean
             (Im3 {| dtype := uint8; data := [[]; []] |})).
    right. reflexivity.
Defined.

Lemma normalize_wrong_channels_witness :
  has_shape 1 2 2 [[[10; 255]; [20; 255]]] = true /\
  (1 <= 1)%nat /\ (1 <= 2)%nat /\ 2%nat <> 3%nat /\ 2%nat <> 4%nat /\
  has_shape 256 256 3 (data sample_mean) = true /\
  normalize sample_mean
            (Im3 {| dtype := uint8; data := [[[10; 255]; [20; 255]]] |})
    = Raise ValueError.
Proof.
  split; [reflexivity|]. split; [lia|]. split; [lia|].
  split; [discriminate|]. split; [discriminate|].
  split; [exact sample_mean_shape|].
  apply (normalize_wrong_channels sample_mean
           {| dtype := uint8; data := [[[10; 255]; [20; 255]]] |} 1 2 2);
    [reflexivity|lia|lia|discriminate|discriminate|exact sample_mean_shape].
Defined.

Lemma newshape_transpose_witness :
  (1 <= 300)%Z /\ (1 <= 200)%Z /\
  exists rows cols,
    newshape 300 200 = OK (rows, cols) /\
    newshape 200 300 = OK (cols, rows).
Proof.
  split; [lia|]. split; [lia|].
  apply (newshape_transpose 300 200); lia.
Defined.

Lemma newshape_idempotent_witness :
  (1 <= 300)%Z /\ (1 <= 200)%Z /\
  newshape 300 200 = OK (384%Z, 256%Z) /\
  newshape 384 256 = OK (384%Z, 256%Z).
Proof.
  split; [lia|]. split; [lia|]. split; [reflexivity|].
  apply (newshape_idempotent 300 200 384 256); [lia|lia|reflexivity].
Defined.

(** ** oversample on images that are not 256 x 256 x 3 *)

Local Open Scope Z_scope.

Lemma slice_length_clamped {X} (l : list X) (a b : Z) :
  0 <= a <= b ->
  length (slice l (Some a) (Some b)) =
  (Nat.min (Z.to_nat b) (length l) - Nat.min (Z.to_nat a) (length l))%nat.
Proof.
  intros H. unfold slice, adjust.
  rewrite length_firstn, length_skipn.
  destruct (Z.ltb_spec a 0); [lia|]. destruct (Z.ltb_spec b 0); [lia|].
  destruct (Z.leb_spec (Z.of_nat (length l)) a);
    destruct (Z.leb_spec (Z.of_nat (length l)) b); lia.
Qed.

Lemma slice_Forall {X} (P : X -> Prop) (l : list X) (a b : option Z) :
  Forall P l -> Forall P (slice l a b).
Proof.
  intros H. unfold slice. apply Forall_firstn_keeps, Forall_skipn_keeps, H.
Qed.

Lemma slice2_shape_clamped {X} (h w c : nat) (a : arr3 X) (i0 i1 j0 j1 : Z) :
  has_shape h w c a = true ->
  0 <= i0 <= i1 -> 0 <= j0 <= j1 ->
  has_shape (Nat.min (Z.to_nat i1) h - Nat.min (Z.to_nat i0) h)
            (Nat.min (Z.to_nat j1) w - Nat.min (Z.to_nat j0) w) c
            (slice2 a (Some i0) (Some i1) (Some j0) (Some j1)) = true.
Proof.
  rewrite !has_shape_spec. intros [Hh Hrows] Hi Hj. unfold slice2. split.
  - rewrite length_map, slice_length_clamped, Hh by exact Hi. reflexivity.
  - rewrite Forall_map. apply slice_Forall.
    eapply Forall_impl; [|exact Hrows].
    intros row [Hw Hpx]. split.
    + rewrite slice_length_clamped, Hw by exact Hj. reflexivity.
    + apply slice_Forall, Hpx.
Qed.

Lemma slice_nth_clamped {X} (l : list X) (a b : Z) (n : nat) (x : X) :
  0 <= a <= b ->
  (n < Nat.min (Z.to_nat b) (length l) - Nat.min (Z.to_nat a) (length l))%nat ->
  nth n (slice l (Some a) (Some b)) x = nth (Z.to_nat a + n) l x.
Proof.
  intros H Hn. unfold slice, adjust.
  destruct (Z.ltb_spec a 0); [lia|]. destruct (Z.ltb_spec b 0); [lia|].
  destruct (Z.leb_spec (Z.of_nat (length l)) a); [lia|].
  rewrite nth_firstn.
  destruct (Z.leb_spec (Z.of_nat (length l)) b);
    (match goal with
     | |- context [(n <? ?m)%nat] => destruct (Nat.ltb_spec n m)
     end; [apply nth_skipn|lia]).
Qed.

(** A slice on both axes holds the pixels from its two starts on, also
    where its stops lie beyond the array. *)
Lemma slice2_pixel_clamped {X} (h w c : nat) (a : arr3 X)
      (i0 i1 j0 j1 : Z) (r k : nat) :
  has_shape h w c a = true ->
  0 <= i0 <= i1 -> 0 <= j0 <= j1 ->
  (r < Nat.min (Z.to_nat i1) h - Nat.min (Z.to_nat i0) h)%nat ->
  (k < Nat.min (Z.to_nat j1) w - Nat.min (Z.to_nat j0) w)%nat ->
  pixel (slice2 a (Some i0) (Some i1) (Some j0) (Some j1)) r k =
  pixel a (Z.to_nat i0 + r) (Z.to_nat j0 + k).
Proof.
  rewrite has_shape_spec. intros [Hh Hrows] Hi Hj Hr Hk.
  unfold pixel, slice2.
  rewrite (nth_map_in (fun row => slice row (Some j0) (Some j1))
                      (slice a (Some i0) (Some i1)) r [])
    by (rewrite slice_length_clamped, Hh by exact Hi; exact Hr).
  rewrite (slice_nth_clamped a) by (rewrite ?Hh; assumption).
  assert (Hin : In (nth (Z.to_nat i0 + r) a []) a) by (apply nth_In; lia).
  rewrite Forall_forall in Hrows. destruct (Hrows _ Hin) as [Hw _].
  apply slice_nth_clamped; [exact Hj|]. rewrite Hw. exact Hk.
Qed.

Section OversampleMore.

Context {A B : Type}.
Variable astype_float32 : A -> B.
Variable np_empty : arr3 B.

(** The center-only branch checks nothing: on an image of any shape
    h x w x c it returns one crop, rows 14 to 240 and columns 14 to 240 as
    far as the image has them, so a crop smaller than 227 x 227 when the
    image has fewer than 241 rows or columns.  Pixel (r, k) of the crop
    is the converted pixel (14 + r, 14 + k) of the image: rows and
    columns keep the image's order. *)
Theorem oversample_center_no_check (image : arr3 A) (h w c : nat) :
  has_shape h w c image = true ->
  exists crop1,
    oversample astype_float32 np_empty image true = OK [crop1] /\
    has_shape (Nat.min 241 h - Nat.min 14 h)
              (Nat.min 241 w - Nat.min 14 w) c crop1 = true /\
    forall r k,
      (r < Nat.min 241 h - Nat.min 14 h)%nat ->
      (k < Nat.min 241 w - Nat.min 14 w)%nat ->
      pixel crop1 r k = map astype_float32 (pixel image (14 + r) (14 + k)).
Proof.
  intros Hs. exists (map3 astype_float32 (crop image 14 14)).
  split; [reflexivity|].
  unfold crop. change (14 + INPUT_DIM) with 241.
  split.
  - apply has_shape_map3.
    apply (slice2_shape_clamped h w c image 14 241 14 241 Hs); lia.
  - intros r k Hr Hk. rewrite pixel_map3. f_equal.
    apply (slice2_pixel_clamped h w c image 14 241 14 241 r k Hs);
      [lia|lia|exact Hr|exact Hk].
Qed.

End OversampleMore.

(** The first 100 rows of the ramp image: 100 x 256 x 3. *)
Definition short_ramp : arr3 Z := firstn 100 ramp.

Lemma short_ramp_shape : has_shape 100 256 3 short_ramp = true.
Proof. vm_compute. reflexivity. Qed.

Lemma oversample_center_no_check_witness :
  has_shape 100 256 3 short_ramp = true /\
  exists crop1,
    oversample (fun x : Z => x) [] short_ramp true = OK [crop1] /\
    has_shape (Nat.min 241 100 - Nat.min 14 100)
              (Nat.min 241 256 - Nat.min 14 256) 3 crop1 = true /\
    forall r k,
      (r < Nat.min 241 100 - Nat.min 14 100)%nat ->
      (k < Nat.min 241 256 - Nat.min 14 256)%nat ->
      pixel crop1 r k =
      map (fun x : Z => x) (pixel short_ramp (14 + r) (14 + k)).
Proof.
  split; [exact short_ramp_shape|].
  apply (oversample_center_no_check (fun x : Z => x) [] short_ramp
           100 256 3 short_ramp_shape).
Defined.

Lemma mapM_length {X Y} (f : X -> result Y) (l : list X) (x : list Y) :
  mapM f l = OK x -> length x = length l.
Proof.
  revert x. induction l as [|a l IH]; simpl; intros x H.
  - injection H as <-. reflexivity.
  - destruct (f a) as [e|y]; [discriminate H|]. simpl in H.
    destruct (mapM f l) as [e|ys]; [discriminate H|]. simpl in H.
    injection H as <-. simpl. f_equal. apply IH. reflexivity.
Qed.

Lemma mapM_ok_each {X Y} (f : X -> result Y) (l : list X) (x : list Y) :
  mapM f l = OK x -> Forall (fun a => exists y, f a = OK y) l.
Proof.
  revert x. induction l as [|a l IH]; simpl; intros x H; [constructor|].
  destruct (f a) as [e|y] eqn:E; [discriminate H|]. simpl in H.
  destruct (mapM f l) as [e|ys]; [discriminate H|].
  constructor; [exists y; exact E|]. apply (IH ys). reflexivity.
Qed.

Lemma mapM_only_ValueError {X Y} (f : X -> result Y) (l : list X) (e : exn) :
  (forall a e', f a = Raise e' -> e' = ValueError) ->
  mapM f l = Raise e -> e = ValueError.
Proof.
  intros Hf. induction l as [|a l IH]; simpl; intros H; [discriminate H|].
  destruct (f a) as [e'|y] eqn:E.
  - simpl in H. injection H as <-. apply (Hf a), E.
  - simpl in H. destruct (mapM f l) as [e'|ys]; [|discriminate H].
    simpl in H. injection H as <-. apply IH. reflexivity.
Qed.

Lemma bcast_raises {X} (n : nat) (l : list X) (e : exn) :
  bcast n l = Raise e -> e = ValueError.
Proof.
  unfold bcast. destruct (Nat.eqb (length l) n); [discriminate|].
  destruct l as [|x [|y l]]; try discriminate;
    intros H; injection H as <-; reflexivity.
Qed.

Lemma bcast_returns {X} (n : nat) (l x : list X) :
  bcast n l = OK x -> length l = n \/ length l = 1%nat.
Proof.
  unfold bcast. destruct (Nat.eqb_spec (length l) n); [auto|].
  destruct l as [|a [|b l]]; try discriminate. auto.
Qed.

Lemma broadcast_to_raises {X} (h w c : nat) (a : arr3 X) (e : exn) :
  broadcast_to h w c a = Raise e -> e = ValueError.
Proof.
  unfold broadcast_to. intros H.
  destruct (mapM _ a) as [e'|rows] eqn:E.
  - simpl in H. injection H as <-.
    eapply mapM_only_ValueError; [|exact E].
    intros row e1 Hrow. cbv beta in Hrow.
    destruct (mapM (bcast c) row) as [e2|pxs] eqn:Ep.
    + simpl in Hrow. injection Hrow as <-.
      eapply mapM_only_ValueError; [|exact Ep].
      intros px e3. apply bcast_raises.
    + simpl in Hrow. apply (bcast_raises _ _ _ Hrow).
  - simpl in H. apply (bcast_raises _ _ _ H).
Qed.

Lemma broadcast_to_returns {X} (h w c : nat) (a x : arr3 X) :
  broadcast_to h w c a = OK x ->
  (length a = h \/ length a = 1%nat) /\
  Forall (fun row => length row = w \/ length row = 1%nat) a.
Proof.
  unfold broadcast_to. intros H.
  destruct (mapM _ a) as [e'|rows] eqn:E; [discriminate H|].
  simpl in H. split.
  - rewrite <- (mapM_length _ _ _ E). apply (bcast_returns _ _ _ H).
  - apply mapM_ok_each in E. eapply Forall_impl; [|exact E].
    intros row [y Hy]. simpl in Hy.
    destruct (mapM (bcast c) row) as [e''|pxs] eqn:Ep; [discriminate Hy|].
    simpl in Hy. rewrite <- (mapM_length _ _ _ Ep).
    apply (bcast_returns _ _ _ Hy).
Qed.

Lemma length_setitem {X} (a : list X) (i : nat) (v : X) :
  length (setitem a i v) = length a.
Proof.
  revert i. induction a as [|x a IH]; intros [|i]; simpl; auto.
Qed.

Section OversampleErrors.

Context {A B : Type}.
Variable astype_float32 : A -> B.
Variable np_empty : arr3 B.

Lemma assign_raises (images : arr4 B) (curr : nat) (v : arr3 A) (e : exn) :
  (curr < length images)%nat ->
  assign astype_float32 images curr v = Raise e -> e = ValueError.
Proof.
  intros Hc. unfold assign. rewrite (proj2 (Nat.ltb_lt _ _) Hc).
  destruct (broadcast_to _ _ _ v) as [e'|v'] eqn:E; [|discriminate].
  simpl. intros H. injection H as <-. apply (broadcast_to_raises _ _ _ _ _ E).
Qed.

Lemma assign_returns (images x : arr4 B) (curr : nat) (v : arr3 A)
      (r k c : nat) :
  has_shape r k c v = true ->
  assign astype_float32 images curr v = OK x ->
  length x = length images /\
  (r = 227 \/ r = 1)%nat /\ (k = 227 \/ k = 1)%nat.
Proof.
  intros Hs. unfold assign.
  destruct (curr <? length images)%nat; [|discriminate].
  destruct (broadcast_to _ _ _ v) as [e'|v'] eqn:E; [discriminate|].
  simpl. intros H. injection H as <-.
  split; [apply length_setitem|].
  apply broadcast_to_returns in E. destruct E as [Hr Hk].
  apply has_shape_spec in Hs. destruct Hs as [Hlen Hrows].
  change (Z.to_nat INPUT_DIM) with 227%nat in *.
  assert (Hr' : (r = 227 \/ r = 1)%nat) by lia.
  split; [exact Hr'|].
  destruct v as [|row v]; [simpl in Hlen; lia|].
  inversion Hk as [|? ? Hk0 _]; subst.
  inversion Hrows as [|? ? [Hw _] _]; subst. exact Hk0.
Qed.

(** The ten-crop branch as the five assignments it makes, in order, and
    the flip. *)
Lemma oversample_ten_steps (image : arr3 A) :
  oversample astype_float32 np_empty image false =
  (i1 <- assign astype_float32 (repeat np_empty 10) 0 (crop image 0 0) ;;
   i2 <- assign astype_float32 i1 1 (crop image 0 29) ;;
   i3 <- assign astype_float32 i2 2 (crop image 29 0) ;;
   i4 <- assign astype_float32 i3 3 (crop image 29 29) ;;
   i5 <- assign astype_float32 i4 4 (crop image 14 14) ;;
   assign_tail i5 (flipped i5)).
Proof.
  unfold oversample, corners.
  change (256 - INPUT_DIM) with 29.
  change (nth 1 [0; 29] 0 / 2) with 14.
  cbn [fold_left bind OK fst snd].
  destruct (assign astype_float32 (repeat np_empty 10) 0 (crop image 0 0))
    as [e|i1]; [reflexivity|]. cbn [bind OK fst snd].
  destruct (assign astype_float32 i1 1 (crop image 0 29))
    as [e|i2]; [reflexivity|]. cbn [bind OK fst snd].
  destruct (assign astype_float32 i2 2 (crop image 29 0))
    as [e|i3]; [reflexivity|]. cbn [bind OK fst snd].
  destruct (assign astype_float32 i3 3 (crop image 29 29))
    as [e|i4]; reflexivity.
Qed.

(** An image with fewer than 256 rows or fewer than 256 columns does not
    get through the ten-crop branch: one of the first three assignments
    cannot broadcast its crop to 227 x 227 x 3 and raises ValueError. *)
Theorem oversample_small_raises (image : arr3 A) (h w c : nat) :
  has_shape h w c image = true ->
  (h < 256)%nat \/ (w < 256)%nat ->
  oversample astype_float32 np_empty image false = Raise ValueError.
Proof.
  intros Hs Hsmall. rewrite oversample_ten_steps.
  assert (Hcrop : forall i j, 0 <= i -> 0 <= j ->
            has_shape (Nat.min (Z.to_nat (i + 227)) h - Nat.min (Z.to_nat i) h)
                      (Nat.min (Z.to_nat (j + 227)) w - Nat.min (Z.to_nat j) w)
                      c (crop image i j) = true).
  { intros i j Hi Hj. unfold crop. change INPUT_DIM with 227.
    apply (slice2_shape_clamped h w c image i (i + 227) j (j + 227) Hs); lia. }
  destruct (assign astype_float32 (repeat np_empty 10) 0 (crop image 0 0))
    as [e|i1] eqn:E1.
  { apply assign_raises in E1; [subst e; reflexivity|simpl; lia]. }
  destruct (assign_returns _ _ _ _ _ _ _ (Hcrop 0 0 ltac:(lia) ltac:(lia)) E1)
    as (L1 & R1 & K1).
  cbn [bind].
  destruct (assign astype_float32 i1 1 (crop image 0 29)) as [e|i2] eqn:E2.
  { apply assign_raises in E2; [subst e; reflexivity|].
    rewrite L1. simpl. lia. }
  destruct (assign_returns _ _ _ _ _ _ _ (Hcrop 0 29 ltac:(lia) ltac:(lia)) E2)
    as (L2 & R2 & K2).
  cbn [bind].
  destruct (assign astype_float32 i2 2 (crop image 29 0)) as [e|i3] eqn:E3.
  { apply assign_raises in E3; [subst e; reflexivity|].
    rewrite L2, L1. simpl. lia. }
  destruct (assign_returns _ _ _ _ _ _ _ (Hcrop 29 0 ltac:(lia) ltac:(lia)) E3)
    as (L3 & R3 & K3).
  exfalso. clear - Hsmall R1 K1 K2 R3.
  change (Z.to_nat (0 + 227)) with 227%nat in *.
  change (Z.to_nat (29 + 227)) with 256%nat in *.
  change (Z.to_nat 0) with 0%nat in *.
  change (Z.to_nat 29) with 29%nat in *.
  assert (Hh : (227 <= h \/ h = 1)%nat) by (clear - R1; lia).
  assert (Hw : (227 <= w \/ w = 1)%nat) by (clear - K1; lia).
  assert (Hw' : (256 <= w)%nat) by (clear - K2 Hw; lia).
  assert (Hh' : (256 <= h)%nat) by (clear - R3 Hh; lia).
  clear - Hsmall Hw' Hh'. lia.
Qed.

End OversampleErrors.

Lemma oversample_small_raises_witness :
  has_shape 100 256 3 short_ramp = true /\
  ((100 < 256)%nat \/ (256 < 256)%nat) /\
  oversample (fun x : Z => x) [] short_ramp false = Raise ValueError.
Proof.
  split; [exact short_ramp_shape|]. split; [left; lia|].
  apply (oversample_small_raises (fun x : Z => x) [] short_ramp 100 256 3
           short_ramp_shape).
  left. lia.
Defined.

Lemma firstn_skipn_firstn {X} (d i n : nat) (l : list X) :
  (i + d <= n)%nat ->
  firstn d (skipn i (firstn n l)) = firstn d (skipn i l).
Proof.
  intros H. rewrite skipn_firstn_comm, firstn_firstn.
  f_equal. lia.
Qed.

Lemma slice_of_head {X} (l : list X) (n i d : Z) :
  0 <= i -> 0 <= d -> i + d <= n -> n <= Z.of_nat (length l) ->
  slice (slice l (Some 0) (Some n)) (Some i) (Some (i + d)) =
  slice l (Some i) (Some (i + d)).
Proof.
  intros Hi Hd Hn Hl.
  assert (Hhead : slice l (Some 0) (Some n) = firstn (Z.to_nat n) l).
  { exact (slice_within l 0 n ltac:(lia) ltac:(lia) ltac:(lia)). }
  rewrite Hhead.
  rewrite slice_within by (try rewrite length_firstn; lia).
  rewrite slice_within by lia.
  apply firstn_skipn_firstn. lia.
Qed.

Section OversampleWindow.

Context {A B : Type}.
Variable astype_float32 : A -> B.
Variable np_empty : arr3 B.

(** [image[0:256, 0:256]] *)
Definition top_left (image : arr3 A) : arr3 A :=
  slice2 image (Some 0) (Some 256) (Some 0) (Some 256).

Lemma crop_top_left (image : arr3 A) (h w c : nat) (i j : Z) :
  has_shape h w c image = true ->
  (256 <= h)%nat -> (256 <= w)%nat ->
  0 <= i <= 29 -> 0 <= j <= 29 ->
  crop (top_left image) i j = crop image i j.
Proof.
  intros Hs Hh Hw Hi Hj.
  apply has_shape_spec in Hs. destruct Hs as [Hlen Hrows].
  unfold crop, top_left, slice2, INPUT_DIM.
  assert (Hhead : slice image (Some 0) (Some 256) = firstn 256 image).
  { exact (slice_within image 0 256 ltac:(lia) ltac:(lia) ltac:(lia)). }
  rewrite Hhead.
  rewrite slice_within by (try rewrite length_map, length_firstn; lia).
  rewrite skipn_map, firstn_map, map_map.
  rewrite firstn_skipn_firstn by lia.
  rewrite (slice_within image i 227) by lia.
  apply map_ext_in. intros row Hrow.
  apply slice_of_head; try lia.
  apply (Forall_skipn_keeps _ (Z.to_nat i)) in Hrows.
  apply (Forall_firstn_keeps _ (Z.to_nat 227)) in Hrows.
  rewrite Forall_forall in Hrows. destruct (Hrows _ Hrow) as [Hwr _]. lia.
Qed.

(** An image of at least 256 rows and columns is accepted whatever its
    size, and only its top-left 256 x 256 corner is looked at: the result
    is that of the corner alone, in both branches; with 3 channels the
    ten-crop branch returns its ten 227 x 227 x 3 crops. *)
Theorem oversample_top_left_only
  (image : arr3 A) (h w c : nat) (center_only : bool) :
  has_shape h w c image = true ->
  (256 <= h)%nat -> (256 <= w)%nat ->
  oversample astype_float32 np_empty image center_only =
  oversample astype_float32 np_empty (top_left image) center_only /\
  (c = 3%nat ->
   exists crops,
     oversample astype_float32 np_empty image false = OK crops /\
     length crops = 10%nat /\
     Forall (fun cr => has_shape 227 227 3 cr = true) crops).
Proof.
  intros Hs Hh Hw.
  assert (Hc : forall i j, 0 <= i <= 29 -> 0 <= j <= 29 ->
               crop (top_left image) i j = crop image i j)
    by (intros i j Hi Hj; apply (crop_top_left image h w c); assumption).
  assert (Heq : forall b,
            oversample astype_float32 np_empty image b =
            oversample astype_float32 np_empty (top_left image) b).
  { intros [|].
    - unfold oversample.
      change (nth 1 [0; 256 - INPUT_DIM] 0 / 2) with 14.
      cbv zeta. rewrite Hc by lia. reflexivity.
    - rewrite !oversample_ten_steps, !Hc by lia. reflexivity. }
  split; [apply Heq|].
  intros ->. rewrite Heq.
  assert (Hwin : has_shape 256 256 3 (top_left image) = true).
  { apply (slice2_shape h w 3 image 0 0 256 256 Hs); lia. }
  exists (ten_crops astype_float32 (top_left image)).
  split; [apply oversample_ten, Hwin|]. split; [reflexivity|].
  apply ten_crops_shape, Hwin.
Qed.

End OversampleWindow.

(** A 300 x 260 x 3 image whose pixel (r, c) is [r; c; 0]. *)
Definition large_ramp : arr3 Z :=
  map (fun r => map (fun c => [Z.of_nat r; Z.of_nat c; 0]) (seq 0 260))
      (seq 0 300).

Lemma large_ramp_shape : has_shape 300 260 3 large_ramp = true.
Proof. vm_compute. reflexivity. Qed.

Lemma oversample_top_left_only_witness :
  has_shape 300 260 3 large_ramp = true /\
  (256 <= 300)%nat /\ (256 <= 260)%nat /\
  oversample (fun x : Z => x) [] large_ramp false =
  oversample (fun x : Z => x) [] (top_left large_ramp) false /\
  (3%nat = 3%nat ->
   exists crops,
     oversample (fun x : Z => x) [] large_ramp false = OK crops /\
     length crops = 10%nat /\
     Forall (fun cr => has_shape 227 227 3 cr = true) crops).
Proof.
  split; [exact large_ramp_shape|]. split; [lia|]. split; [lia|].
  apply (oversample_top_left_only (fun x : Z => x) [] large_ramp
           300 260 3 false large_ramp_shape); lia.
Defined.

(** ** classify as a whole *)

Local Open Scope Q_scope.

Section ClassifyMore.

Context {skimage : Skimage} {F B : Type} {arith : Arith F}.
Variable data_mean : ndarray.
Variable astype_float32 : Q -> B.
Variable np_empty : arr3 B.
Variable predict : arr4 B -> result (list (list F)).

(** For an image the normalisation accepts, classify hands the network
    one batch, of 1 crop when [center_only] and of 10 otherwise, each
    227 x 227 x 3; what the network raises classify raises, and what it
    returns classify averages down the batch axis. *)
Theorem classify_calls_predict
  (im : image) (h w : nat) (center_only : bool) :
  (1 <= h)%nat -> (1 <= w)%nat ->
  has_shape 256 256 3 (data data_mean) = true ->
  match im with
  | Im2 _ px => rect2 h w px
  | Im3 a => has_shape h w 3 (data a) || has_shape h w 4 (data a)
  end = true ->
  exists images,
    length images = (if center_only then 1%nat else 10%nat) /\
    Forall (fun cr => has_shape 227 227 3 cr = true) images /\
    (forall e, predict images = Raise e ->
       classify data_mean astype_float32 np_empty predict im center_only
       = Raise e) /\
    (forall predictions, predict images = OK predictions ->
       classify data_mean astype_float32 np_empty predict im center_only
       = OK (mean0 predictions)).
Proof.
  intros Hh Hw Hm Him.
  assert (Hs : has_shape h w 3 (data (three_channels im)) = true).
  { destruct im as [d px|a].
    - apply (three_channels_gray d px h w Him).
    - apply orb_true_iff in Him. destruct Him as [H3|H4].
      + rewrite (three_channels_rgb a h w H3 Hh Hw). exact H3.
      + apply (three_channels_rgba a h w H4 Hh Hw). }
  destruct (normalize_spec data_mean im h w Hs Hh Hw Hm)
    as (out & Ho & Hso & _).
  assert (Hbatch : exists images,
            oversample astype_float32 np_empty (data out) center_only
              = OK images /\
            length images = (if center_only then 1%nat else 10%nat) /\
            Forall (fun cr => has_shape 227 227 3 cr = true) images).
  { destruct center_only.
    - exists [map3 astype_float32 (crop (data out) 14 14)].
      split; [apply oversample_center|]. split; [reflexivity|].
      constructor; [|constructor].
      apply has_shape_map3.
      apply (crop_shape 256 256 3); unfold INPUT_DIM; trivial; lia.
    - exists (ten_crops astype_float32 (data out)).
      split; [apply oversample_ten, Hso|]. split; [reflexivity|].
      apply ten_crops_shape, Hso. }
  destruct Hbatch as (images & Hov & Hlen & Hshape).
  exists images. split; [exact Hlen|]. split; [exact Hshape|].
  unfold classify, classify_direct. rewrite Ho. simpl bind.
  rewrite Hov. simpl bind.
  split; intros x Hx; rewrite Hx; reflexivity.
Qed.

End ClassifyMore.

(** A network that gives every crop the uniform score vector. *)
Definition uniform_predict (images : arr4 Q) : result (list (list Q)) :=
  OK (map (fun _ => repeat (1 # 1000) 1000) images).

Lemma classify_calls_predict_witness :
  (1 <= 2)%nat /\ (1 <= 3)%nat /\
  has_shape 256 256 3 (data sample_mean) = true /\
  rect2 2 3 [[10; 20; 30]; [40; 50; 60]] = true /\
  exists images,
    length images = 10%nat /\
    Forall (fun cr => has_shape 227 227 3 cr = true) images /\
    (forall e, uniform_predict images = Raise e ->
       classify sample_mean (fun v => v) [] uniform_predict gray_image false
       = Raise e) /\
    (forall predictions, uniform_predict images = OK predictions ->
       classify sample_mean (fun v => v) [] uniform_predict gray_image false
       = OK (mean0 predictions)).
Proof.
  split; [lia|]. split; [lia|]. split; [exact sample_mean_shape|].
  split; [reflexivity|].
  apply (classify_calls_predict sample_mean (fun v => v) [] uniform_predict
           gray_image 2 3 false);
    [lia|lia|exact sample_mean_shape|reflexivity].
Defined.

(** ** Where a pixel of the canonical image comes from *)

Local Open Scope Z_scope.

Lemma slice2_pixel {X} (h w ch : nat) (a : arr3 X) (i j d e : Z)
      (r c : nat) :
  has_shape h w ch a = true ->
  0 <= i -> 0 <= d -> i + d <= Z.of_nat h ->
  0 <= j -> 0 <= e -> j + e <= Z.of_nat w ->
  (r < Z.to_nat d)%nat -> (c < Z.to_nat e)%nat ->
  pixel (slice2 a (Some i) (Some (i + d)) (Some j) (Some (j + e))) r c =
  pixel a (Z.to_nat i + r) (Z.to_nat j + c).
Proof.
  rewrite has_shape_spec. intros [Hh Hrows] Hi Hd Hih Hj He Hjw Hr Hc.
  unfold pixel, slice2.
  rewrite (nth_map_in (fun row => slice row (Some j) (Some (j + e)))
                      (slice a (Some i) (Some (i + d))) r [])
    by (rewrite slice_within_length; lia).
  rewrite (slice_within_nth a) by lia.
  apply slice_within_nth; try lia.
  assert (Hin : In (nth (Z.to_nat i + r) a []) a) by (apply nth_In; lia).
  rewrite Forall_forall in Hrows. destruct (Hrows _ Hin) as [Hw _]. lia.
Qed.

Lemma zip3_pixel {X} (f : X -> X -> X) (h w ch : nat) (a b : arr3 X)
      (r c : nat) :
  has_shape h w ch a = true -> has_shape h w ch b = true ->
  (r < h)%nat -> (c < w)%nat ->
  pixel (zip3 f a b) r c =
  map (fun vv => f (fst vv) (snd vv)) (combine (pixel a r c) (pixel b r c)).
Proof.
  rewrite !has_shape_spec. intros [Ha Hra] [Hb Hrb] Hr Hc.
  unfold pixel, zip3.
  rewrite (nth_map_in _ (combine a b) r ([], []))
    by (rewrite length_combine; lia).
  rewrite combine_nth by lia. cbn [fst snd].
  assert (Hina : In (nth r a []) a) by (apply nth_In; lia).
  assert (Hinb : In (nth r b []) b) by (apply nth_In; lia).
  rewrite Forall_forall in Hra, Hrb.
  destruct (Hra _ Hina) as [Hwa _]. destruct (Hrb _ Hinb) as [Hwb _].
  rewrite (nth_map_in _ (combine (nth r a []) (nth r b [])) c ([], []))
    by (rewrite length_combine; lia).
  rewrite combine_nth by lia. reflexivity.
Qed.

Local Open Scope Q_scope.

Section NormalizePixels.

Context {skimage : Skimage}.

(** Pixel (r, c) of the canonical image is the pixel of the resized
    image that lies [h_offset + r] rows above its last row and
    [w_offset + c] columns from its first column, minus pixel (r, c) of
    the mean: the rows are taken bottom up, the columns as they are. *)
Theorem normalize_pixel
  (data_mean : ndarray) (im : image) (h w : nat) :
  has_shape h w 3 (data (three_channels im)) = true ->
  (1 <= h)%nat -> (1 <= w)%nat ->
  has_shape 256 256 3 (data data_mean) = true ->
  exists mid out rows cols,
    resized (three_channels im) = OK mid /\
    has_shape rows cols 3 (data mid) = true /\
    (256 <= rows)%nat /\ (256 <= cols)%nat /\
    normalize data_mean im = OK out /\
    forall r c, (r < 256)%nat -> (c < 256)%nat ->
      pixel (data out) r c =
      map (fun vv => fst vv - snd vv)
          (combine (pixel (data mid)
                          (rows - 1 - ((rows - 256) / 2 + r))
                          ((cols - 256) / 2 + c))
                   (pixel (data data_mean) r c)).
Proof.
  intros Hs Hh Hw Hm.
  destruct (resized_spec _ h w 3 Hs Hh Hw)
    as (rows & cols & out & _ & Hr & Hc & Hre & Hso & _).
  set (mid := {| dtype := float64; data := map3 (fun v => v * 255) out |}).
  assert (Hmid : has_shape (Z.to_nat rows) (Z.to_nat cols) 3 (data mid) = true)
    by (apply has_shape_map3, Hso).
  destruct (flip_and_center_shape mid 3 rows cols Hmid Hr Hc) as [Hf _].
  destruct (isub_shape (flip_and_center mid) data_mean 256 256 3 Hf Hm)
    as [Hi _]; [lia|lia|].
  exists mid, {| dtype := dtype (flip_and_center mid);
                 data := zip3 Qminus (data (flip_and_center mid))
                              (data data_mean) |},
         (Z.to_nat rows), (Z.to_nat cols).
  split; [exact Hre|]. split; [exact Hmid|].
  split; [lia|]. split; [lia|].
  split; [unfold normalize; rewrite Hre; exact Hi|].
  intros r c Hrr Hcc. cbn [data].
  rewrite (zip3_pixel Qminus 256 256 3 _ _ r c Hf Hm Hrr Hcc).
  f_equal. f_equal.
  assert (Hrev := has_shape_rev _ _ _ _ Hmid).
  assert (E : shape3 (rev (data mid)) = (Z.to_nat rows, Z.to_nat cols, 3%nat))
    by (apply shape3_of_has_shape; [exact Hrev|lia|lia]).
  unfold flip_and_center, _JEFFNET_FLIP. cbv zeta. cbn [data].
  rewrite slice_rev_all.
  rewrite (map_ext _ (fun row => row)) by (intros row; apply slice_all).
  rewrite map_id.
  rewrite E. cbn [fst snd]. rewrite !Z2Nat.id by lia.
  assert (Hoff : forall n, (256 <= n)%Z ->
            (0 <= (n - 256) / 2)%Z /\ ((n - 256) / 2 + 256 <= n)%Z /\
            Z.to_nat ((n - 256) / 2) = ((Z.to_nat n - 256) / 2)%nat).
  { intros n Hn. pose proof (Z.mul_div_le (n - 256) 2 ltac:(lia)).
    split; [apply Z.div_pos; lia|]. split; [lia|].
    rewrite <- (Z2Nat.id n) at 1 by lia.
    change 256%Z with (Z.of_nat 256). rewrite <- Nat2Z.inj_sub by lia.
    change 2%Z with (Z.of_nat 2). rewrite <- Nat2Z.inj_div, Nat2Z.id.
    reflexivity. }
  destruct (Hoff rows Hr) as (Hr0 & Hr1 & Hr2).
  destruct (Hoff cols Hc) as (Hc0 & Hc1 & Hc2).
  rewrite (slice2_pixel (Z.to_nat rows) (Z.to_nat cols) 3 (rev (data mid))
             ((rows - 256) / 2) ((cols - 256) / 2) 256 256 r c Hrev)
    by (try rewrite Z2Nat.id by lia; first [lia | exact Hrr | exact Hcc]).
  assert (Hlen : length (data mid) = Z.to_nat rows).
  { apply has_shape_spec in Hmid. destruct Hmid as [Hl _]. exact Hl. }
  rewrite pixel_rev by (rewrite Hlen, Hr2; lia).
  rewrite Hlen, Hr2, Hc2. f_equal. lia.
Qed.

End NormalizePixels.

Lemma normalize_pixel_witness :
  has_shape 2 3 3 (data (three_channels gray_image)) = true /\
  (1 <= 2)%nat /\ (1 <= 3)%nat /\
  has_shape 256 256 3 (data sample_mean) = true /\
  exists mid out rows cols,
    resized (three_channels gray_image) = OK mid /\
    has_shape rows cols 3 (data mid) = true /\
    (256 <= rows)%nat /\ (256 <= cols)%nat /\
    normalize sample_mean gray_image = OK out /\
    forall r c, (r < 256)%nat -> (c < 256)%nat ->
      pixel (data out) r c =
      map (fun vv => fst vv - snd vv)
          (combine (pixel (data mid)
                          (rows - 1 - ((rows - 256) / 2 + r))
                          ((cols - 256) / 2 + c))
                   (pixel (data sample_mean) r c)).
Proof.
  split; [reflexivity|]. split; [lia|]. split; [lia|].
  split; [exact sample_mean_shape|].
  apply (normalize_pixel sample_mean gray_image 2 3);
    [reflexivity|lia|lia|exact sample_mean_shape].
Defined.
